(** * ZL3073x identity reader (zl30733_id.c): paged register access over spidev

    A shallow embedding of [zl30733_id.c].  Integers of the C program are
    [Z] with the conversions written out, byte buffers are [list Z] of
    values below 256, and the kernel's [SPI_IOC_MESSAGE(1)] ioctl is an
    interface ([SpiBus]) that a device model implements.  The process
    state (device, heap, the two output streams) is threaded explicitly
    through every function as a [world]. *)

From Stdlib Require Import ZArith List String Ascii Bool Lia.
Import ListNotations.
Open Scope Z_scope.

(** ** Constants of the program and of the platform headers *)

Definition ZL_PAGE_SIZE : Z := 0x80.
Definition ZL_PAGE_SEL : Z := 0x7F.

Definition ZL_REG_ID : Z := 0x0001.
Definition ZL_REG_REVISION : Z := 0x0003.
Definition ZL_REG_FW_VER : Z := 0x0005.
Definition ZL_REG_CUSTOM_CONFIG_VER : Z := 0x0007.

(** [<errno.h>] and [<stdlib.h>] on Linux. *)
Definition EINVAL : Z := 22.
Definition ENOMEM : Z := 12.
Definition EXIT_SUCCESS : Z := 0.
Definition EXIT_FAILURE : Z := 1.

(** [SPI_MODE_0] of [<linux/spi/spi.h>]. *)
Definition SPI_MODE_0 : Z := 0.

(** Conversions to the fixed-width unsigned types. *)
Definition u8 (x : Z) : Z := x mod 2 ^ 8.
Definition u16 (x : Z) : Z := x mod 2 ^ 16.
Definition u32 (x : Z) : Z := x mod 2 ^ 32.
Definition size_t (x : Z) : Z := x mod 2 ^ 64.

(** A buffer of [uint8_t]. *)
Definition bytes_ok (l : list Z) : Prop := Forall (fun b => 0 <= b < 256) l.

(** ** printf conversions *)

Definition digit_char (d : Z) : ascii :=
  nth (Z.to_nat d)
      (list_ascii_of_string "0123456789ABCDEF") "?"%char.

Fixpoint digits_aux (fuel : nat) (base n : Z) (acc : list Z) : list Z :=
  match fuel with
  | O => acc
  | S f =>
      if n <? base then n :: acc
      else digits_aux f base (n / base) (n mod base :: acc)
  end.

(** Most significant digit first; every non-negative [n] fits the fuel. *)
Definition digits (base n : Z) : list Z :=
  digits_aux (S (Z.to_nat (Z.log2 n))) base n [].

Definition render (ds : list Z) : string :=
  string_of_list_ascii (map digit_char ds).

(** [%u] and [%zu]. *)
Definition fmt_u (n : Z) : string := render (digits 10 n).

(** [%0<width>X]; [%X] is width 0. *)
Definition fmt_X (width : nat) (n : Z) : string :=
  let ds := digits 16 n in
  render (repeat 0 (width - List.length ds)%nat ++ ds).

(** [snprintf] into a [char] array of [size]: at most [size - 1] characters. *)
Definition snprintf (size : nat) (s : string) : string :=
  substring 0 (size - 1)%nat s.

(** ** Run-time configuration: the file-scope variables *)

Record globals := {
  devnode : string;
  speed_hz : Z;
  mode : Z;
  bits_per_word : Z;
  debug : Z
}.

Definition default_globals : globals :=
  {| devnode := "/dev/spidev0.0";
     speed_hz := 1000000;
     mode := SPI_MODE_0;
     bits_per_word := 8;
     debug := 0 |}.

(** ** Known chip IDs *)

Record id_map := { id : Z; name : string }.

Definition known_ids : list id_map :=
  [ {| id := 0x0E95; name := "ZL3073x (A)" |};
    {| id := 0x1E95; name := "ZL3073x (B)" |};
    {| id := 0x2E95; name := "ZL3073x (C)" |} ].

(** The [for] loop of [lookup_name], over the remaining entries. *)
Fixpoint lookup_from (tbl : list id_map) (i : Z) : string :=
  match tbl with
  | [] => "Unknown"
  | e :: rest => if id e =? i then name e else lookup_from rest i
  end.

Definition lookup_name (i : Z) : string := lookup_from known_ids i.

(** ** Address split

    The initialisers of the locals [page] and [off] of [zl_read_reg]. *)

Definition page_of (reg : Z) : Z := u8 (Z.land (Z.shiftr reg 7) 0x0F).
Definition off_of (reg : Z) : Z := u8 (Z.land reg 0x7F).

(** ** The spidev transfer and the bus interface *)

Module Spidev.
(** [struct spi_ioc_transfer], the fields the program sets.  [rx_buf] is
    [None] for a null pointer and otherwise the buffer's contents. *)
Record spi_ioc_transfer := {
  tx_buf : list Z;
  rx_buf : option (list Z);
  len : Z;
  speed_hz : Z;
  bits_per_word : Z;
  cs_change : Z
}.
End Spidev.

(** One [ioctl(fd, SPI_IOC_MESSAGE(1), &xfer)] on a device in state [Dev]:
    the value the call returns, the bytes clocked in, the device after. *)
Class SpiBus (Dev : Type) :=
  spi_ioc_message : Dev -> Spidev.spi_ioc_transfer -> Z * list Z * Dev.

(** ** Process state *)

Record world (Dev : Type) := {
  dev : Dev;
  (** every transfer submitted so far with what the ioctl returned, oldest first *)
  bus_log : list (Spidev.spi_ioc_transfer * Z);
  (** outcomes of the coming [calloc] calls; when exhausted, [calloc] succeeds *)
  heap : list bool;
  (** what an uninitialised automatic array holds *)
  uninit : list Z;
  stderr : string;
  stdout : string
}.
Arguments dev {Dev} w.
Arguments bus_log {Dev} w.
Arguments heap {Dev} w.
Arguments uninit {Dev} w.
Arguments stderr {Dev} w.
Arguments stdout {Dev} w.

Section Accessor.
Context {Dev : Type} `{SpiBus Dev}.
Variable g : globals.

Definition eprint (s : string) (w : world Dev) : world Dev :=
  {| dev := dev w; bus_log := bus_log w; heap := heap w;
     uninit := uninit w; stderr := (stderr w ++ s)%string;
     stdout := stdout w |}.

Definition print (s : string) (w : world Dev) : world Dev :=
  {| dev := dev w; bus_log := bus_log w; heap := heap w;
     uninit := uninit w; stderr := stderr w;
     stdout := (stdout w ++ s)%string |}.

(** [calloc(1, n)]: a zeroed block, or null. *)
Definition calloc (n : Z) (w : world Dev) : option (list Z) * world Dev :=
  let '(ok, rest) :=
    match heap w with
    | [] => (true, [])
    | b :: h => (b, h)
    end in
  ((if ok then Some (repeat 0 (Z.to_nat n)) else None),
   {| dev := dev w; bus_log := bus_log w; heap := rest;
      uninit := uninit w; stderr := stderr w; stdout := stdout w |}).

(** The driver stores what it received at the start of the receive
    buffer and never beyond the buffer. *)
Definition received (got rx : list Z) : list Z :=
  firstn (List.length rx) (got ++ skipn (List.length got) rx).

(** [ioctl(fd, SPI_IOC_MESSAGE(1), &xfer)]: the return value and the
    receive buffer afterwards. *)
Definition ioctl (x : Spidev.spi_ioc_transfer) (w : world Dev)
  : Z * list Z * world Dev :=
  let '(ret, got, d) := spi_ioc_message (dev w) x in
  (ret,
   match Spidev.rx_buf x with
   | Some rx => received got rx
   | None => []
   end,
   {| dev := d; bus_log := bus_log w ++ [(x, ret)]; heap := heap w;
      uninit := uninit w; stderr := stderr w; stdout := stdout w |}).

(** [memcpy(dst, src, n)] for [n] within both buffers. *)
Definition memcpy (dst src : list Z) (n : Z) : list Z :=
  firstn (Z.to_nat n) src ++ skipn (Z.to_nat n) dst.

Definition hexdump (prefix : string) (buf : list Z) (n : Z) : string :=
  (prefix
   ++ String.concat " " (map (fmt_X 2) (firstn (Z.to_nat n) buf))
   ++ String "010" "")%string.

Definition spi_write_u8 (reg_off val : Z) (w : world Dev) : Z * world Dev :=
  let tx := [reg_off; val] in
  let w1 :=
    if debug g >? 0 then
      let pfx := snprintf 64
        ("SPI_W: off=0x" ++ fmt_X 2 reg_off ++ ",  data=")%string in
      eprint (hexdump pfx (skipn 1 tx) 1) w
    else w in
  let xfer :=
    {| Spidev.tx_buf := tx;
       Spidev.rx_buf := None;
       Spidev.len := 2;
       Spidev.speed_hz := speed_hz g;
       Spidev.bits_per_word := bits_per_word g;
       Spidev.cs_change := 0 |} in
  let '(ret, _, w2) := ioctl xfer w1 in
  ((if ret <? 1 then -1 else 0), w2).

(** Returns [r] and the contents of [buf] when the call returns. *)
Definition spi_read (reg_off : Z) (buf : list Z) (len : Z) (w : world Dev)
  : Z * list Z * world Dev :=
  if (len =? 0) || (len >? 255) then (- EINVAL, buf, w)
  else
    let '(tx, w1) := calloc (len + 1) w in
    let '(rx, w2) := calloc (len + 1) w1 in
    match tx, rx with
    | Some tx, Some rx =>
        let tx := reg_off :: skipn 1 tx in
        let xfer :=
          {| Spidev.tx_buf := tx;
             Spidev.rx_buf := Some rx;
             Spidev.len := u32 (len + 1);
             Spidev.speed_hz := speed_hz g;
             Spidev.bits_per_word := bits_per_word g;
             Spidev.cs_change := 0 |} in
        let '(ret, rx, w3) := ioctl xfer w2 in
        if ret <? 1 then (-1, buf, w3)
        else
          let w4 :=
            if debug g >? 0 then
              let pfx := snprintf 64
                ("SPI_R: off=0x" ++ fmt_X 2 reg_off ++ " rx=")%string in
              eprint (hexdump pfx (skipn 1 rx) len) w3
            else w3 in
          (0, memcpy buf (skipn 1 rx) len, w4)
    | _, _ => (- ENOMEM, buf, w2)
    end.

Definition zl_set_page (page : Z) (w : world Dev) : Z * world Dev :=
  if page >? 0x0F then (- EINVAL, w)
  else
    let w1 :=
      if debug g >? 0 then
        eprint ("PAGE -> 0x" ++ fmt_X 0 (Z.land page 0xf)
                ++ " (write 0x" ++ fmt_X 2 (Z.land page 0xf)
                ++ " to 0x" ++ fmt_X 2 ZL_PAGE_SEL ++ ")"
                ++ String "010" "")%string w
      else w in
    spi_write_u8 ZL_PAGE_SEL (Z.land page 0x0F) w1.

Definition zl_read_reg (reg : Z) (buf : list Z) (len : Z) (w : world Dev)
  : Z * list Z * world Dev :=
  let page := page_of reg in
  let off := off_of reg in
  let '(rc, w1) := zl_set_page page w in
  if rc =? 0 then spi_read off buf len w1
  else (rc, buf, w1).

End Accessor.

(** ** The read-and-decode step and the probe *)

Inductive endian := LittleEndian | BigEndian.

(** What the C library and the ABI fix: the byte order of the host and the
    name [errx] and [warnx] print in front of their message. *)
Record platform := { host_order : endian; progname : string }.

(** A computation that may leave through [errx]. *)
Inductive outcome (A : Type) :=
| Return (a : A)
| Errx (status : Z) (msg : string).
Arguments Return {A} a.
Arguments Errx {A} status msg.

Definition nl : string := String "010" "".

(** [memcpy(&_t, _b, 2)] into a [uint16_t]: the value [_t] then holds. *)
Definition load_u16 (e : endian) (b : list Z) : Z :=
  let b0 := nth 0 b 0 in
  let b1 := nth 1 b 0 in
  match e with
  | LittleEndian => Z.lor b0 (Z.shiftl b1 8)
  | BigEndian => Z.lor (Z.shiftl b0 8) b1
  end.

(** [memcpy(&_t, _b, 4)] into a [uint32_t]. *)
Definition load_u32 (e : endian) (b : list Z) : Z :=
  let b0 := nth 0 b 0 in
  let b1 := nth 1 b 0 in
  let b2 := nth 2 b 0 in
  let b3 := nth 3 b 0 in
  match e with
  | LittleEndian =>
      Z.lor (Z.lor b0 (Z.shiftl b1 8))
            (Z.lor (Z.shiftl b2 16) (Z.shiftl b3 24))
  | BigEndian =>
      Z.lor (Z.lor (Z.shiftl b0 24) (Z.shiftl b1 16))
            (Z.lor (Z.shiftl b2 8) b3)
  end.

Definition bswap_16 (x : Z) : Z :=
  Z.lor (Z.shiftl (Z.land x 0xFF) 8) (Z.land (Z.shiftr x 8) 0xFF).

Definition bswap_32 (x : Z) : Z :=
  Z.lor (Z.lor (Z.shiftl (Z.land x 0xFF) 24)
               (Z.shiftl (Z.land (Z.shiftr x 8) 0xFF) 16))
        (Z.lor (Z.shiftl (Z.land (Z.shiftr x 16) 0xFF) 8)
               (Z.land (Z.shiftr x 24) 0xFF)).

Definition ntohs (e : endian) (x : Z) : Z :=
  match e with
  | LittleEndian => bswap_16 x
  | BigEndian => x
  end.

Definition ntohl (e : endian) (x : Z) : Z :=
  match e with
  | LittleEndian => bswap_32 x
  | BigEndian => x
  end.

Section Probe.
Context {Dev : Type} `{SpiBus Dev}.
Variable pf : platform.
Variable g : globals.

Definition warnx (msg : string) (w : world Dev) : world Dev :=
  eprint (progname pf ++ ": " ++ msg ++ nl)%string w.

Definition errx {A : Type} (status : Z) (msg : string) (w : world Dev)
  : outcome A * world Dev :=
  (Errx status msg, eprint (progname pf ++ ": " ++ msg ++ nl)%string w).

(** The [if] / [else if] chain that ends the macro [ZL_READ_REG]: the
    value assigned to [OUTVAR], of size [sizeof_OUTVAR], from the first
    [_len] bytes of [_b]. *)
Definition ZL_READ_REG_assign (REG_s : string) (sizeof_OUTVAR : Z)
           (_len : Z) (_b : list Z) (w : world Dev)
  : outcome Z * world Dev :=
  let cast := fun x : Z => x mod 2 ^ (8 * sizeof_OUTVAR) in
  if _len =? 1 then
    (Return (cast (nth 0 _b 0)), w)
  else if _len =? 2 then
    (Return (cast (ntohs (host_order pf) (load_u16 (host_order pf) _b))), w)
  else if _len =? 4 then
    (Return (cast (ntohl (host_order pf) (load_u32 (host_order pf) _b))), w)
  else
    errx EXIT_FAILURE
         (REG_s ++ " unsupported LEN=" ++ fmt_u _len
          ++ " (only 8,16,32 bits)")%string w.

(** The macro [ZL_READ_REG(FD, REG, OUTVAR, LEN)]: [REG_s] and [OUTVAR_s]
    are the spellings [#REG] and [#OUTVAR], [sizeof_OUTVAR] the size of
    the variable assigned, and the result the value assigned to it. *)
Definition ZL_READ_REG (REG_s : string) (REG : Z)
           (OUTVAR_s : string) (sizeof_OUTVAR : Z) (LEN : Z)
           (w : world Dev) : outcome Z * world Dev :=
  let _len := size_t LEN in
  let _b := firstn 8 (uninit w ++ repeat 0 8) in
  if _len >? 8 then
    errx EXIT_FAILURE
         (REG_s ++ " read len " ++ fmt_u _len ++ " > " ++ fmt_u 8)%string w
  else
    let w1 :=
      if _len >? sizeof_OUTVAR then
        warnx (REG_s ++ " read len " ++ fmt_u _len ++ " > "
               ++ fmt_u sizeof_OUTVAR ++ " for " ++ OUTVAR_s)%string w
      else w in
    let '(rc, _b, w2) := zl_read_reg g (u16 REG) _b _len w1 in
    if rc <? 0 then
      errx EXIT_FAILURE ("read " ++ REG_s ++ " failed")%string w2
    else ZL_READ_REG_assign REG_s sizeof_OUTVAR _len _b w2.

Definition bind {A B : Type} (m : world Dev -> outcome A * world Dev)
           (k : A -> world Dev -> outcome B * world Dev)
           (w : world Dev) : outcome B * world Dev :=
  match m w with
  | (Return a, w1) => k a w1
  | (Errx st msg, w1) => (Errx st msg, w1)
  end.

(** [main] from the declaration of [chip_id] on: the four reads, the
    report and the exit status.  Option parsing, [open] and the three
    configuration ioctls come before and are not part of it. *)
Definition main_body : world Dev -> outcome Z * world Dev :=
  bind (ZL_READ_REG "ZL_REG_ID" ZL_REG_ID "chip_id" 2 2) (fun chip_id =>
  bind (ZL_READ_REG "ZL_REG_REVISION" ZL_REG_REVISION "revision" 2 2)
       (fun revision =>
  bind (ZL_READ_REG "ZL_REG_FW_VER" ZL_REG_FW_VER "fw_ver" 2 2)
       (fun fw_ver =>
  bind (ZL_READ_REG "ZL_REG_CUSTOM_CONFIG_VER" ZL_REG_CUSTOM_CONFIG_VER
                    "cfg_ver" 4 4)
       (fun cfg_ver w =>
    let w := print ("ZL3073x identity via " ++ devnode g ++ nl)%string w in
    let w := print ("  Chip ID              : 0x" ++ fmt_X 4 chip_id
                    ++ "  (" ++ lookup_name chip_id ++ ")" ++ nl)%string w in
    let w := print ("  Revision             : 0x" ++ fmt_X 4 revision
                    ++ "  (major="
                    ++ fmt_u (Z.land (Z.shiftr revision 4) 0xF)
                    ++ " minor=" ++ fmt_u (Z.land revision 0xF)
                    ++ ")" ++ nl)%string w in
    let w := print ("  Firmware Version     : 0x" ++ fmt_X 4 fw_ver
                    ++ nl)%string w in
    let w := print ("  Custom Config Version: 0x" ++ fmt_X 8 cfg_ver
                    ++ nl)%string w in
    (Return EXIT_SUCCESS, w))))).

(** The status the process ends with. *)
Definition exit_status (o : outcome Z) : Z :=
  match o with
  | Return st => st
  | Errx st _ => st
  end.

End Probe.

(** ** A register-file device for testing

    Sixteen pages of 128 byte registers behind the page-select register.
    A write transfer to [ZL_PAGE_SEL] latches the low nibble as the page; a
    read transfer returns one byte while the offset is clocked out and then
    the registers from that offset on.  Every transfer is carried out in
    full. *)

Record stub := {
  cur_page : Z;
  echo : Z;
  regs : Z -> Z -> Z
}.

Definition stub_xfer (d : stub) (x : Spidev.spi_ioc_transfer)
  : Z * list Z * stub :=
  match Spidev.rx_buf x, Spidev.tx_buf x with
  | None, off :: v :: _ =>
      (Spidev.len x, [],
       if off =? ZL_PAGE_SEL
       then {| cur_page := Z.land v 0x0F; echo := echo d; regs := regs d |}
       else d)
  | Some _, off :: _ =>
      (Spidev.len x,
       echo d :: map (fun i => regs d (cur_page d) (off + Z.of_nat i))
                     (seq 0 (Z.to_nat (Spidev.len x) - 1)),
       d)
  | _, _ => (-1, [], d)
  end.

#[export] Instance stub_bus : SpiBus stub := stub_xfer.

(** The identity block of page 0 over arbitrary other registers. *)
Definition identity_regs (other : Z -> Z -> Z) (page off : Z) : Z :=
  if (page =? 0) && (1 <=? off) && (off <=? 10) then
    nth (Z.to_nat (off - 1))
        [0x0E; 0x95; 0x00; 0x10; 0x00; 0x02; 0x00; 0x00; 0x00; 0x01] 0
  else other page off.

(** The register file holding the identity block, with page [p]
    selected and [e] returned while the offset is clocked out. *)
Definition identity_stub (p e : Z) (other : Z -> Z -> Z) : stub :=
  {| cur_page := p; echo := e; regs := identity_regs other |}.

(** A process that has made no transfer and printed nothing, with [junk]
    in its uninitialised arrays and a heap that does not run out. *)
Definition start_world {Dev : Type} (d : Dev) (junk : list Z) : world Dev :=
  {| dev := d; bus_log := []; heap := []; uninit := junk;
     stderr := ""; stdout := "" |}.

Definition fresh_world {Dev : Type} (d : Dev) : world Dev := start_world d [].

(** The report of the identity block on the default device node. *)
Definition identity_report : string :=
  ("ZL3073x identity via /dev/spidev0.0" ++ nl
   ++ "  Chip ID              : 0x0E95  (ZL3073x (A))" ++ nl
   ++ "  Revision             : 0x0010  (major=1 minor=0)" ++ nl
   ++ "  Firmware Version     : 0x0002" ++ nl
   ++ "  Custom Config Version: 0x00000001" ++ nl)%string.

Definition linux_le : platform :=
  {| host_order := LittleEndian; progname := "zl30733_id" |}.

(** ** Transfers the accessor is expected to submit *)

(** Page select: the byte [page], low nibble only, written to [ZL_PAGE_SEL]. *)
Definition page_select_transfer (g : globals) (page : Z)
  : Spidev.spi_ioc_transfer :=
  {| Spidev.tx_buf := [0x7F; Z.land page 0x0F];
     Spidev.rx_buf := None;
     Spidev.len := 2;
     Spidev.speed_hz := speed_hz g;
     Spidev.bits_per_word := bits_per_word g;
     Spidev.cs_change := 0 |}.

(** Register read: the offset and [len] zero bytes out, [len + 1] bytes in. *)
Definition read_transfer (g : globals) (off len : Z)
  : Spidev.spi_ioc_transfer :=
  {| Spidev.tx_buf := off :: repeat 0 (Z.to_nat len);
     Spidev.rx_buf := Some (repeat 0 (Z.to_nat (len + 1)));
     Spidev.len := len + 1;
     Spidev.speed_hz := speed_hz g;
     Spidev.bits_per_word := bits_per_word g;
     Spidev.cs_change := 0 |}.

(** A bus double that answers the coming transfers from a script of
    (return value, bytes received); once the script is used up every
    transfer fails. *)
Definition scripted := list (Z * list Z).

#[export] Instance scripted_bus : SpiBus scripted :=
  fun d _ =>
    match d with
    | [] => (-1, [], [])
    | (r, got) :: rest => (r, got, rest)
    end.

(** Whether the next [n] calls of [calloc] all return a block. *)
Definition callocs_ok {Dev : Type} (n : nat) (w : world Dev) : bool :=
  forallb (fun b : bool => b) (firstn n (heap w)).

(** A logged transfer that the program takes as carried out. *)
Definition accepted (e : Spidev.spi_ioc_transfer * Z) : Prop := 1 <= snd e.

(** The transfers logged between the worlds [w] and [w']. *)
Definition new_transfers {Dev : Type} (w w' : world Dev)
  : list (Spidev.spi_ioc_transfer * Z) :=
  skipn (List.length (bus_log w)) (bus_log w').

(** A step that prints nothing on the standard output, only adds to the
    bus log, and returns a value only if every transfer it submitted was
    accepted; otherwise it exits with [EXIT_FAILURE]. *)
Definition guarded {Dev A : Type}
           (m : world Dev -> outcome A * world Dev) : Prop :=
  forall w,
    stdout (snd (m w)) = stdout w /\
    exists es,
      bus_log (snd (m w)) = bus_log w ++ es /\
      match fst (m w) with
      | Return _ => Forall accepted es
      | Errx st _ => st = EXIT_FAILURE
      end.

(** The same for a whole run, which prints once it has all its values. *)
Definition all_or_nothing {Dev A : Type}
           (m : world Dev -> outcome A * world Dev) : Prop :=
  forall w,
    exists es,
      bus_log (snd (m w)) = bus_log w ++ es /\
      match fst (m w) with
      | Return _ => Forall accepted es
      | Errx st _ => st = EXIT_FAILURE /\ stdout (snd (m w)) = stdout w
      end.

(** A transfer whose buffers have the length it announces, whose first
    byte out is a 7-bit register offset, and which carries the bus
    settings of [g]. *)
Definition well_formed (g : globals) (x : Spidev.spi_ioc_transfer) : Prop :=
  Z.of_nat (List.length (Spidev.tx_buf x)) = Spidev.len x /\
  match Spidev.rx_buf x with
  | None => True
  | Some rx => Z.of_nat (List.length rx) = Spidev.len x
  end /\
  0 <= hd 0 (Spidev.tx_buf x) <= 0x7F /\
  Spidev.speed_hz x = speed_hz g /\
  Spidev.bits_per_word x = bits_per_word g /\
  Spidev.cs_change x = 0.

(** The configuration [g] with the debug level set to [level], as the
    option [-D] leaves it. *)
Definition with_debug (g : globals) (level : Z) : globals :=
  {| devnode := devnode g;
     speed_hz := speed_hz g;
     mode := mode g;
     bits_per_word := bits_per_word g;
     debug := level |}.

(** Two worlds that differ at most in what was written to the error
    stream. *)
Definition same_but_stderr {Dev : Type} (w w' : world Dev) : Prop :=
  dev w = dev w' /\ bus_log w = bus_log w' /\ heap w = heap w' /\
  uninit w = uninit w' /\ stdout w = stdout w'.

(** ** Start-up: options, [usage], opening and configuring the device *)

(** [SPI_MODE_1] to [SPI_MODE_3] of [<linux/spi/spi.h>]. *)
Definition SPI_MODE_1 : Z := 1.
Definition SPI_MODE_2 : Z := 2.
Definition SPI_MODE_3 : Z := 3.

(** Conversion of an [unsigned long] to [int]. *)
Definition to_int (x : Z) : Z := (x + 2 ^ 31) mod 2 ^ 32 - 2 ^ 31.

(** [%d]. *)
Definition fmt_d (n : Z) : string :=
  if n <? 0 then ("-" ++ fmt_u (- n))%string else fmt_u n.

(** One return of [getopt_long] other than -1: the option character
    [opt], the argument [optarg] it points to, and what [getopt_long]
    itself wrote to the error stream ([diag], empty unless it returns
    ['?']). *)
Record getopt_ret := { opt : ascii; optarg : string; diag : string }.

(** The system calls of the start-up, each with the text of
    [strerror(errno)] after it: [open(devnode, O_RDWR)] and the three
    configuration ioctls, as functions of the value passed. *)
Record kernel := {
  sys_open : string -> Z * string;
  wr_mode : Z -> Z * string;
  wr_bits_per_word : Z -> Z * string;
  wr_max_speed_hz : Z -> Z * string
}.

Section Main.
Context {Dev : Type} `{SpiBus Dev}.
Variable pf : platform.
(** [strtoul(s, NULL, 0)] and [atoi(s)]. *)
Variable strtoul : string -> Z.
Variable atoi : string -> Z.
(** [argv[0]]. *)
Variable argv0 : string.

Definition usage (prog : string) (g : globals) (w : world Dev) : world Dev :=
  eprint ("Usage: " ++ prog
          ++ " [-d /dev/spidevX.Y] [-s speed_hz] [-m 0..3] [-D debug_level]"
          ++ nl
          ++ "  -d  spidev device (default " ++ devnode g ++ ")" ++ nl
          ++ "  -s  SPI speed in Hz (default " ++ fmt_u (speed_hz g) ++ ")"
          ++ nl
          ++ "  -m  SPI mode 0..3 (default " ++ fmt_d (mode g) ++ ")" ++ nl
          ++ "  -D  debug of SPI transfers (default " ++ fmt_d (debug g)
          ++ ")" ++ nl)%string w.

(** The [while] loop of [main] over the returns of [getopt_long] that
    are still to come.  It ends with the configuration ([inl]), with the
    status [main] returns after [usage] ([inr]), or in [errx]. *)
Fixpoint getopt_loop (evs : list getopt_ret) (g : globals) (w : world Dev)
  : outcome (globals + Z) * world Dev :=
  match evs with
  | [] => (Return (inl g), w)
  | ev :: rest =>
      let w := eprint (diag ev) w in
      if Ascii.eqb (opt ev) "d" then
        getopt_loop rest
          {| devnode := optarg ev; speed_hz := speed_hz g; mode := mode g;
             bits_per_word := bits_per_word g; debug := debug g |} w
      else if Ascii.eqb (opt ev) "s" then
        getopt_loop rest
          {| devnode := devnode g; speed_hz := u32 (strtoul (optarg ev));
             mode := mode g; bits_per_word := bits_per_word g;
             debug := debug g |} w
      else if Ascii.eqb (opt ev) "m" then
        let m := atoi (optarg ev) in
        if (m <? 0) || (m >? 3) then
          errx pf EXIT_FAILURE
               ("Invalid SPI mode " ++ fmt_d m ++ ", expected 0..3")%string w
        else
          let md :=
            match m with
            | 0 => SPI_MODE_0
            | 1 => SPI_MODE_1
            | 2 => SPI_MODE_2
            | 3 => SPI_MODE_3
            | _ => mode g
            end in
          getopt_loop rest
            {| devnode := devnode g; speed_hz := speed_hz g; mode := md;
               bits_per_word := bits_per_word g; debug := debug g |} w
      else if Ascii.eqb (opt ev) "D" then
        getopt_loop rest
          {| devnode := devnode g; speed_hz := speed_hz g; mode := mode g;
             bits_per_word := bits_per_word g;
             debug := to_int (strtoul (optarg ev)) |} w
      else
        (Return (inr EXIT_FAILURE), usage argv0 g w)
  end.

(** [err(status, ...)]: as [errx], with [strerror(errno)] after the
    message. *)
Definition err {A : Type} (status : Z) (msg strerror : string)
           (w : world Dev) : outcome A * world Dev :=
  (Errx status (msg ++ ": " ++ strerror)%string,
   eprint (progname pf ++ ": " ++ msg ++ ": " ++ strerror ++ nl)%string w).

(** [main]: the options, [open], the three configuration ioctls and the
    probe.  [dev w] is the device behind the node that is opened. *)
Definition main (evs : list getopt_ret) (k : kernel) (w : world Dev)
  : outcome Z * world Dev :=
  match getopt_loop evs default_globals w with
  | (Errx st msg, w1) => (Errx st msg, w1)
  | (Return (inr st), w1) => (Return st, w1)
  | (Return (inl g), w1) =>
      let '(fd, e) := sys_open k (devnode g) in
      if fd <? 0 then
        err EXIT_FAILURE ("open " ++ devnode g ++ " failed")%string e w1
      else
        let '(r, e) := wr_mode k (mode g) in
        if r =? -1 then
          err EXIT_FAILURE
              ("SPI_IOC_WR_MODE(" ++ fmt_d (mode g) ++ ")")%string e w1
        else
          let '(r, e) := wr_bits_per_word k (bits_per_word g) in
          if r =? -1 then
            err EXIT_FAILURE
                ("SPI_IOC_WR_BITS_PER_WORD(" ++ fmt_d (bits_per_word g)
                 ++ ")")%string e w1
          else
            let '(r, e) := wr_max_speed_hz k (speed_hz g) in
            if r =? -1 then
              err EXIT_FAILURE
                  ("SPI_IOC_WR_MAX_SPEED_HZ(" ++ fmt_u (speed_hz g)
                   ++ ")")%string e w1
            else main_body pf g w1
  end.

End Main.

(** A configuration as the program can hold it: the mode one of the four
    SPI modes, the speed a [uint32_t], the debug level an [int]. *)
Definition globals_ok (g : globals) : Prop :=
  0 <= mode g <= 3 /\ 0 <= speed_hz g < 2 ^ 32 /\
  - 2 ^ 31 <= debug g < 2 ^ 31.

(** A kernel on which the start-up goes through. *)
Definition willing_kernel : kernel :=
  {| sys_open := fun _ => (3, ""%string);
     wr_mode := fun _ => (0, ""%string);
     wr_bits_per_word := fun _ => (0, ""%string);
     wr_max_speed_hz := fun _ => (0, ""%string) |}.

(** * Properties *)

(** ** Bit operations as arithmetic *)

Lemma land_0xF (x : Z) : Z.land x 0x0F = x mod 16.
Proof. change 0x0F with (Z.ones 4). now rewrite Z.land_ones by lia. Qed.

Lemma land_0x7F (x : Z) : Z.land x 0x7F = x mod 128.
Proof. change 0x7F with (Z.ones 7). now rewrite Z.land_ones by lia. Qed.

Lemma land_0xFF (x : Z) : Z.land x 0xFF = x mod 256.
Proof. change 0xFF with (Z.ones 8). now rewrite Z.land_ones by lia. Qed.

Lemma shiftr_7 (x : Z) : Z.shiftr x 7 = x / 128.
Proof. now rewrite Z.shiftr_div_pow2 by lia. Qed.

Lemma page_of_arith (reg : Z) : page_of reg = (reg / 128) mod 16.
Proof.
  unfold page_of, u8. rewrite land_0xF, shiftr_7.
  change (2 ^ 8) with 256.
  Z.to_euclidean_division_equations; lia.
Qed.

Lemma off_of_arith (reg : Z) : off_of reg = reg mod 128.
Proof.
  unfold off_of, u8. rewrite land_0x7F.
  change (2 ^ 8) with 256.
  Z.to_euclidean_division_equations; lia.
Qed.

Lemma page_of_range (reg : Z) : 0 <= page_of reg <= 15.
Proof. rewrite page_of_arith. Z.to_euclidean_division_equations; lia. Qed.

Lemma off_of_range (reg : Z) : 0 <= off_of reg <= 127.
Proof. rewrite off_of_arith. Z.to_euclidean_division_equations; lia. Qed.

(** ** Chip-ID lookup *)

Lemma lookup_from_miss (tbl : list id_map) (i : Z) :
  (forall e, In e tbl -> id e <> i) -> lookup_from tbl i = "Unknown"%string.
Proof.
  induction tbl as [|e rest IH]; intros Hmiss; simpl.
  - reflexivity.
  - destruct (Z.eqb_spec (id e) i) as [Heq|_].
    + exfalso. apply (Hmiss e); [now left | exact Heq].
    + apply IH. intros e' He'. apply Hmiss. now right.
Qed.

Lemma lookup_from_hit (tbl : list id_map) (i : Z) :
  lookup_from tbl i <> "Unknown"%string ->
  exists e, In e tbl /\ id e = i /\ lookup_from tbl i = name e.
Proof.
  induction tbl as [|e rest IH]; simpl; intros Hne.
  - now contradiction Hne.
  - destruct (Z.eqb_spec (id e) i) as [Heq|_].
    + exists e. auto.
    + destruct (IH Hne) as (e' & Hin & Hid & Hname). exists e'. auto.
Qed.

(** C7: [lookup_name] returns the name of a table entry exactly when the
    ID is one of the three listed IDs, each with its own name, and
    ["Unknown"] for every other ID; only an ID equal to a listed one gets a
    name other than ["Unknown"]. *)
Theorem lookup_name_exact (i : Z) :
  (i = 0x0E95 -> lookup_name i = "ZL3073x (A)"%string) /\
  (i = 0x1E95 -> lookup_name i = "ZL3073x (B)"%string) /\
  (i = 0x2E95 -> lookup_name i = "ZL3073x (C)"%string) /\
  (i <> 0x0E95 -> i <> 0x1E95 -> i <> 0x2E95 ->
   lookup_name i = "Unknown"%string) /\
  (lookup_name i <> "Unknown"%string <->
   exists e, In e known_ids /\ id e = i /\ lookup_name i = name e).
Proof.
  repeat split.
  - intros ->. reflexivity.
  - intros ->. reflexivity.
  - intros ->. reflexivity.
  - intros Ha Hb Hc. apply lookup_from_miss.
    intros e [<-|[<-|[<-|[]]]]; simpl; congruence.
  - apply lookup_from_hit.
  - intros (e & Hin & Hid & Hname) Hunk.
    rewrite Hname in Hunk.
    destruct Hin as [<-|[<-|[<-|[]]]]; discriminate Hunk.
Qed.

(** ** Byte order *)

Lemma land_disjoint (a b n : Z) :
  0 <= n -> 0 <= a < 2 ^ n -> Z.land (b * 2 ^ n) a = 0.
Proof.
  intros Hn Ha. apply Z.bits_inj'. intros i Hi.
  rewrite Z.land_spec, Z.bits_0.
  destruct (Z_lt_dec i n) as [Hlow|Hhigh].
  - rewrite Z.mul_pow2_bits_low by lia. reflexivity.
  - assert (Ht : Z.testbit a i = false).
    { apply Z.testbit_false; [lia|].
      rewrite Z.div_small; [reflexivity|].
      split; [lia|]. apply Z.lt_le_trans with (2 ^ n); [lia|].
      apply Z.pow_le_mono_r; lia. }
    rewrite Ht. apply andb_false_r.
Qed.

Lemma lor_disjoint (a b n : Z) :
  0 <= n -> 0 <= a < 2 ^ n -> Z.lor (b * 2 ^ n) a = b * 2 ^ n + a.
Proof.
  intros Hn Ha.
  rewrite Z.add_nocarry_lxor by now apply land_disjoint.
  symmetry. apply Z.lxor_lor. now apply land_disjoint.
Qed.

Lemma shiftl_lor_low (a b n : Z) :
  0 <= n -> 0 <= a < 2 ^ n -> Z.lor (Z.shiftl b n) a = b * 2 ^ n + a.
Proof. intros. rewrite Z.shiftl_mul_pow2 by lia. now apply lor_disjoint. Qed.

Lemma low_lor_shiftl (a b n : Z) :
  0 <= n -> 0 <= a < 2 ^ n -> Z.lor a (Z.shiftl b n) = b * 2 ^ n + a.
Proof. intros. rewrite Z.lor_comm. now apply shiftl_lor_low. Qed.

Lemma load_u16_value (e : endian) (b0 b1 : Z) (rest : list Z) :
  0 <= b0 < 256 -> 0 <= b1 < 256 ->
  load_u16 e (b0 :: b1 :: rest) =
  match e with
  | LittleEndian => b1 * 256 + b0
  | BigEndian => b0 * 256 + b1
  end.
Proof.
  intros H0 H1. unfold load_u16. cbn [nth].
  destruct e.
  - now rewrite low_lor_shiftl by (cbn; lia).
  - now rewrite shiftl_lor_low by (cbn; lia).
Qed.

Lemma bswap_16_value (lo hi : Z) :
  0 <= lo < 256 -> 0 <= hi < 256 ->
  bswap_16 (hi * 256 + lo) = lo * 256 + hi.
Proof.
  intros Hlo Hhi. unfold bswap_16.
  rewrite !land_0xFF, Z.shiftr_div_pow2 by lia.
  change (2 ^ 8) with 256.
  replace ((hi * 256 + lo) mod 256) with lo
    by (Z.to_euclidean_division_equations; lia).
  replace (((hi * 256 + lo) / 256) mod 256) with hi
    by (Z.to_euclidean_division_equations; lia).
  now rewrite shiftl_lor_low by (cbn; lia).
Qed.

Lemma ntohs_load_u16 (e : endian) (hi lo : Z) (rest : list Z) :
  0 <= hi < 256 -> 0 <= lo < 256 ->
  ntohs e (load_u16 e (hi :: lo :: rest)) = hi * 256 + lo.
Proof.
  intros Hhi Hlo. rewrite load_u16_value by assumption.
  destruct e; cbn [ntohs]; [now apply bswap_16_value | reflexivity].
Qed.

Lemma lor_4_bytes (a b c d : Z) :
  0 <= a < 256 -> 0 <= b < 256 -> 0 <= c < 256 -> 0 <= d < 256 ->
  Z.lor (Z.lor (Z.shiftl a 24) (Z.shiftl b 16)) (Z.lor (Z.shiftl c 8) d)
  = a * 2 ^ 24 + b * 2 ^ 16 + c * 2 ^ 8 + d.
Proof.
  intros Ha Hb Hc Hd.
  rewrite (shiftl_lor_low d c 8) by (cbn; lia).
  rewrite (Z.shiftl_mul_pow2 b 16) by lia.
  rewrite (shiftl_lor_low (b * 2 ^ 16) a 24) by (cbn; lia).
  replace (a * 2 ^ 24 + b * 2 ^ 16) with ((a * 2 ^ 8 + b) * 2 ^ 16)
    by (cbn; lia).
  rewrite lor_disjoint by (cbn; lia).
  cbn; lia.
Qed.

Lemma load_u32_value (e : endian) (b0 b1 b2 b3 : Z) (rest : list Z) :
  0 <= b0 < 256 -> 0 <= b1 < 256 -> 0 <= b2 < 256 -> 0 <= b3 < 256 ->
  load_u32 e (b0 :: b1 :: b2 :: b3 :: rest) =
  match e with
  | LittleEndian => b3 * 2 ^ 24 + b2 * 2 ^ 16 + b1 * 2 ^ 8 + b0
  | BigEndian => b0 * 2 ^ 24 + b1 * 2 ^ 16 + b2 * 2 ^ 8 + b3
  end.
Proof.
  intros H0 H1 H2 H3. unfold load_u32. cbn [nth].
  destruct e.
  - rewrite (Z.lor_comm b0), (Z.lor_comm (Z.shiftl b2 16)), Z.lor_comm.
    now apply lor_4_bytes.
  - now apply lor_4_bytes.
Qed.

Lemma bswap_32_value (b0 b1 b2 b3 : Z) :
  0 <= b0 < 256 -> 0 <= b1 < 256 -> 0 <= b2 < 256 -> 0 <= b3 < 256 ->
  bswap_32 (b3 * 2 ^ 24 + b2 * 2 ^ 16 + b1 * 2 ^ 8 + b0)
  = b0 * 2 ^ 24 + b1 * 2 ^ 16 + b2 * 2 ^ 8 + b3.
Proof.
  intros H0 H1 H2 H3. unfold bswap_32.
  set (x := b3 * 2 ^ 24 + b2 * 2 ^ 16 + b1 * 2 ^ 8 + b0).
  rewrite !land_0xFF, !Z.shiftr_div_pow2 by lia.
  assert (E0 : x mod 256 = b0)
    by (subst x; cbn; Z.to_euclidean_division_equations; lia).
  assert (E1 : (x / 2 ^ 8) mod 256 = b1)
    by (subst x; cbn; Z.to_euclidean_division_equations; lia).
  assert (E2 : (x / 2 ^ 16) mod 256 = b2)
    by (subst x; cbn; Z.to_euclidean_division_equations; lia).
  assert (E3 : (x / 2 ^ 24) mod 256 = b3)
    by (subst x; cbn; Z.to_euclidean_division_equations; lia).
  rewrite E0, E1, E2, E3. now apply lor_4_bytes.
Qed.

Lemma ntohl_load_u32 (e : endian) (b0 b1 b2 b3 : Z) (rest : list Z) :
  0 <= b0 < 256 -> 0 <= b1 < 256 -> 0 <= b2 < 256 -> 0 <= b3 < 256 ->
  ntohl e (load_u32 e (b0 :: b1 :: b2 :: b3 :: rest))
  = b0 * 2 ^ 24 + b1 * 2 ^ 16 + b2 * 2 ^ 8 + b3.
Proof.
  intros H0 H1 H2 H3. rewrite load_u32_value by assumption.
  destruct e; cbn [ntohl]; [now apply bswap_32_value | reflexivity].
Qed.

Lemma cast_fits (x sz n : Z) :
  0 <= n -> n <= 8 * sz -> 0 <= x < 2 ^ n -> x mod 2 ^ (8 * sz) = x.
Proof.
  intros Hn Hsz Hx. apply Z.mod_small. split; [lia|].
  apply Z.lt_le_trans with (2 ^ n); [lia|].
  apply Z.pow_le_mono_r; lia.
Qed.

(** Evaluates the powers of two with a literal exponent in the goal. *)
Ltac pow_literals :=
  repeat match goal with
         | |- context [2 ^ Zpos ?p] =>
             let v := eval vm_compute in (2 ^ Zpos p) in
             change (2 ^ Zpos p) with v
         end.

(** ** Byte buffers *)

Lemma bytes_ok_firstn (n : nat) (l : list Z) :
  bytes_ok l -> bytes_ok (firstn n l).
Proof.
  unfold bytes_ok. revert l.
  induction n as [|n IH]; intros [|b l] Hl; cbn; try constructor.
  - now inversion Hl.
  - apply IH. now inversion Hl.
Qed.

Lemma bytes_ok_skipn (n : nat) (l : list Z) :
  bytes_ok l -> bytes_ok (skipn n l).
Proof.
  unfold bytes_ok. revert l.
  induction n as [|n IH]; intros [|b l] Hl; cbn; try assumption.
  apply IH. now inversion Hl.
Qed.

Lemma bytes_ok_zeros (n : nat) : bytes_ok (repeat 0 n).
Proof.
  unfold bytes_ok. induction n as [|n IH]; cbn; constructor; [lia | exact IH].
Qed.

(** ** Hex dumps *)





(** ** Address split *)

Section AccessorFacts.
Context {Dev : Type} `{SpiBus Dev}.
Variable g : globals.

(** C3: for a logical address in [0, 0x7FF] the split computed by
    [zl_read_reg] is [page = addr >> 7], [off = addr & 0x7F], the two put
    back together give the address, and these are the page selected and
    the offset read. *)
Theorem zl_read_reg_split (addr : Z) (buf : list Z) (len : Z) (w : world Dev) :
  0 <= addr <= 0x7FF ->
  page_of addr = Z.shiftr addr 7 /\
  off_of addr = Z.land addr 0x7F /\
  page_of addr * ZL_PAGE_SIZE + off_of addr = addr /\
  zl_read_reg g addr buf len w =
    (let '(rc, w1) := zl_set_page g (Z.shiftr addr 7) w in
     if rc =? 0 then spi_read g (Z.land addr 0x7F) buf len w1
     else (rc, buf, w1)).
Proof.
  intros Hrange.
  assert (Hp : page_of addr = Z.shiftr addr 7).
  { rewrite page_of_arith, shiftr_7.
    Z.to_euclidean_division_equations; lia. }
  assert (Ho : off_of addr = Z.land addr 0x7F).
  { rewrite off_of_arith, land_0x7F. reflexivity. }
  repeat split; try assumption.
  - rewrite page_of_arith, off_of_arith. unfold ZL_PAGE_SIZE.
    Z.to_euclidean_division_equations; lia.
  - unfold zl_read_reg. rewrite Hp, Ho. reflexivity.
Qed.


(** ** Output and heap bookkeeping *)

Lemma eprint_bus_log (s : string) (w : world Dev) :
  bus_log (eprint s w) = bus_log w.
Proof. reflexivity. Qed.

Lemma eprint_stdout (s : string) (w : world Dev) :
  stdout (eprint s w) = stdout w.
Proof. reflexivity. Qed.

Lemma eprint_dev (s : string) (w : world Dev) : dev (eprint s w) = dev w.
Proof. reflexivity. Qed.

Lemma skipn_1_zeros (n : Z) :
  0 <= n -> skipn 1 (repeat 0 (Z.to_nat (n + 1))) = repeat 0 (Z.to_nat n).
Proof.
  intros Hn. replace (Z.to_nat (n + 1)) with (S (Z.to_nat n)) by lia.
  reflexivity.
Qed.

(** ** Page selection *)

(** The world in which [spi_write_u8] and [spi_read] submit their
    transfer: tracing has only written to the error stream. *)
Lemma spi_write_u8_run (reg_off val : Z) (w : world Dev) :
  let x := {| Spidev.tx_buf := [reg_off; val];
              Spidev.rx_buf := None;
              Spidev.len := 2;
              Spidev.speed_hz := speed_hz g;
              Spidev.bits_per_word := bits_per_word g;
              Spidev.cs_change := 0 |} in
  let ret := fst (fst (spi_ioc_message (dev w) x)) in
  let r := spi_write_u8 g reg_off val w in
  fst r = (if ret <? 1 then -1 else 0) /\
  bus_log (snd r) = bus_log w ++ [(x, ret)] /\
  stdout (snd r) = stdout w /\
  heap (snd r) = heap w /\
  uninit (snd r) = uninit w /\
  dev (snd r) = snd (spi_ioc_message (dev w) x).
Proof.
  unfold spi_write_u8, ioctl.
  destruct (debug g >? 0); simpl;
    destruct (spi_ioc_message _ _) as [[ret got] d]; simpl;
    repeat split; reflexivity.
Qed.

Lemma zl_set_page_refuses (p : Z) (w : world Dev) :
  15 < p -> zl_set_page g p w = (- EINVAL, w).
Proof.
  intros Hp. unfold zl_set_page.
  destruct (Z.gtb_spec p 0x0F); [reflexivity | lia].
Qed.

Lemma zl_set_page_run (p : Z) (w : world Dev) :
  p <= 15 ->
  let x := page_select_transfer g p in
  let ret := fst (fst (spi_ioc_message (dev w) x)) in
  let r := zl_set_page g p w in
  fst r = (if ret <? 1 then -1 else 0) /\
  bus_log (snd r) = bus_log w ++ [(x, ret)] /\
  stdout (snd r) = stdout w /\
  heap (snd r) = heap w /\
  uninit (snd r) = uninit w /\
  dev (snd r) = snd (spi_ioc_message (dev w) x).
Proof.
  intros Hp. cbv zeta. unfold zl_set_page.
  destruct (Z.gtb_spec p 0x0F) as [Hgt|_]; [lia|].
  set (w1 := if debug g >? 0 then _ else w).
  assert (Hw1 : dev w1 = dev w /\ bus_log w1 = bus_log w /\
                stdout w1 = stdout w /\ heap w1 = heap w /\
                uninit w1 = uninit w).
  { subst w1. destruct (debug g >? 0); repeat split; reflexivity. }
  destruct Hw1 as (Hdev & Hlog & Hout & Hheap & Hun).
  destruct (spi_write_u8_run ZL_PAGE_SEL (Z.land p 0x0F) w1)
    as (Hr & Hl & Ho & Hh & Hu & Hd).
  unfold page_select_transfer. change 0x7F with ZL_PAGE_SEL.
  rewrite Hr, Hl, Ho, Hh, Hu, Hd, Hdev, Hlog, Hout, Hheap, Hun.
  repeat split; reflexivity.
Qed.

(** C6: a page above 15 is refused with [-EINVAL] and the world, the bus
    log included, is left as it was; a page in [0, 15] submits exactly one
    transfer, the two bytes [0x7F] and the page masked to four bits with
    no receive buffer, and the result follows that transfer's. *)
Theorem zl_set_page_spec (p : Z) (w : world Dev) :
  (15 < p -> zl_set_page g p w = (- EINVAL, w)) /\
  (0 <= p <= 15 ->
   let x := page_select_transfer g p in
   let ret := fst (fst (spi_ioc_message (dev w) x)) in
   let r := zl_set_page g p w in
   Spidev.tx_buf x = [ZL_PAGE_SEL; Z.land p 0x0F] /\
   Z.land p 0x0F = p /\
   Spidev.rx_buf x = None /\
   Spidev.len x = 2 /\
   bus_log (snd r) = bus_log w ++ [(x, ret)] /\
   fst r = (if ret <? 1 then -1 else 0)).
Proof.
  split.
  - apply zl_set_page_refuses.
  - intros Hp. cbv zeta.
    destruct (zl_set_page_run p w) as (Hr & Hl & _); [lia|].
    repeat split; try assumption.
    rewrite land_0xF. apply Z.mod_small. lia.
Qed.

(** ** Register read *)

(** C9: a read of [addr] is the same computation, with the same
    page-select write and the same read transfer, as a read of
    [addr mod 0x800], which lies in [0, 0x7FF]; the page handed to
    [zl_set_page] never exceeds 15, so its [-EINVAL] return is never
    taken on this path. *)
Theorem zl_read_reg_aliases (addr : Z) (buf : list Z) (len : Z)
        (w : world Dev) :
  zl_read_reg g addr buf len w = zl_read_reg g (addr mod 0x800) buf len w /\
  0 <= addr mod 0x800 <= 0x7FF /\
  page_of addr = Z.land (Z.shiftr addr 7) 0xF /\
  (page_of addr >? 0x0F) = false /\
  fst (zl_set_page g (page_of addr) w) <> - EINVAL.
Proof.
  assert (Hp : page_of (addr mod 0x800) = page_of addr).
  { rewrite !page_of_arith. Z.to_euclidean_division_equations; lia. }
  assert (Ho : off_of (addr mod 0x800) = off_of addr).
  { rewrite !off_of_arith. Z.to_euclidean_division_equations; lia. }
  pose proof (page_of_range addr) as Hr.
  repeat split.
  - unfold zl_read_reg. rewrite Hp, Ho. reflexivity.
  - Z.to_euclidean_division_equations; lia.
  - Z.to_euclidean_division_equations; lia.
  - rewrite page_of_arith, land_0xF, shiftr_7. reflexivity.
  - destruct (Z.gtb_spec (page_of addr) 0x0F); [lia | reflexivity].
  - destruct (zl_set_page_run (page_of addr) w) as (Hrc & _); [lia|].
    rewrite Hrc. unfold EINVAL.
    destruct (_ <? 1); discriminate.
Qed.

(** What [spi_read] does, with the transfer it submits written as
    [read_transfer]. *)
Lemma spi_read_run (off : Z) (buf : list Z) (len : Z) (w : world Dev) :
  1 <= len <= 255 ->
  let x := read_transfer g off len in
  let '(ret, got, d) := spi_ioc_message (dev w) x in
  let rx := received got (repeat 0 (Z.to_nat (len + 1))) in
  let r := spi_read g off buf len w in
  stdout (snd r) = stdout w /\
  heap (snd r) = skipn 2 (heap w) /\
  uninit (snd r) = uninit w /\
  if callocs_ok 2 w then
    bus_log (snd r) = bus_log w ++ [(x, ret)] /\
    dev (snd r) = d /\
    fst r = (if ret <? 1 then (-1, buf)
             else (0, memcpy buf (skipn 1 rx) len))
  else
    bus_log (snd r) = bus_log w /\
    dev (snd r) = dev w /\
    fst r = (- ENOMEM, buf).
Proof.
  intros Hlen. cbv zeta.
  destruct (spi_ioc_message (dev w) (read_transfer g off len))
    as [[ret got] d] eqn:Hioc.
  unfold spi_read.
  destruct (Z.eqb_spec len 0) as [?|_]; [lia|].
  destruct (Z.gtb_spec len 255) as [?|_]; [lia|].
  cbn [orb].
  assert (Hx : forall tx0,
    tx0 = repeat 0 (Z.to_nat (len + 1)) ->
    {| Spidev.tx_buf := off :: skipn 1 tx0;
       Spidev.rx_buf := Some (repeat 0 (Z.to_nat (len + 1)));
       Spidev.len := u32 (len + 1);
       Spidev.speed_hz := speed_hz g;
       Spidev.bits_per_word := bits_per_word g;
       Spidev.cs_change := 0 |} = read_transfer g off len).
  { intros tx0 ->. unfold read_transfer, u32.
    rewrite skipn_1_zeros by lia.
    rewrite Z.mod_small by lia. reflexivity. }
  unfold callocs_ok, calloc.
  destruct (heap w) as [|[|] [|[|] h]]; cbn -[Z.to_nat repeat skipn];
    try (repeat split; reflexivity);
    rewrite (Hx _ eq_refl); unfold ioctl; cbn -[Z.to_nat repeat skipn];
    rewrite Hioc; cbn -[Z.to_nat repeat skipn];
    (destruct (ret <? 1); [repeat split; reflexivity|]);
    destruct (debug g >? 0); repeat split; reflexivity.
Qed.

Lemma spi_read_invalid (off : Z) (buf : list Z) (len : Z) (w : world Dev) :
  len = 0 \/ 255 < len -> spi_read g off buf len w = (- EINVAL, buf, w).
Proof.
  intros Hlen. unfold spi_read.
  destruct (Z.eqb_spec len 0); [reflexivity|].
  destruct (Z.gtb_spec len 255); [reflexivity | lia].
Qed.

(** C10: whenever [spi_read] returns an error (and the only errors are
    [-EINVAL], [-ENOMEM] and [-1]) the caller's buffer comes back as it
    was passed; it is written only on the return of 0, which needs a
    valid length, both scratch buffers and a transfer that returned at
    least 1, and then receives the [len] bytes that follow the first
    byte of the receive buffer. *)
Theorem spi_read_buffer (off : Z) (buf : list Z) (len : Z) (w : world Dev) :
  0 <= len ->
  let r := spi_read g off buf len w in
  let rc := fst (fst r) in
  let buf' := snd (fst r) in
  (rc <> 0 -> buf' = buf) /\
  (rc = 0 \/ rc = - EINVAL \/ rc = - ENOMEM \/ rc = -1) /\
  (rc = 0 ->
   1 <= len <= 255 /\ callocs_ok 2 w = true /\
   let '(ret, got, _) := spi_ioc_message (dev w) (read_transfer g off len) in
   let rx := received got (repeat 0 (Z.to_nat (len + 1))) in
   1 <= ret /\
   buf' = firstn (Z.to_nat len) (skipn 1 rx) ++ skipn (Z.to_nat len) buf).
Proof.
  intros Hsize. cbv zeta.
  destruct (Z.eq_dec len 0) as [H0|H0];
    [rewrite spi_read_invalid by auto; cbn; unfold EINVAL;
     repeat split; auto; lia|].
  destruct (Z_lt_dec 255 len) as [H255|H255];
    [rewrite spi_read_invalid by auto; cbn; unfold EINVAL;
     repeat split; auto; lia|].
  assert (Hlen : 1 <= len <= 255) by lia.
  pose proof (spi_read_run off buf len w Hlen) as Hrun.
  cbv zeta in Hrun.
  destruct (spi_ioc_message (dev w) (read_transfer g off len))
    as [[ret got] d].
  destruct Hrun as (_ & _ & _ & Hrun).
  destruct (callocs_ok 2 w).
  - destruct Hrun as (_ & _ & ->).
    destruct (Z.ltb_spec ret 1); cbn [fst snd].
    + repeat split; auto; lia.
    + unfold memcpy. repeat split; auto; lia.
  - destruct Hrun as (_ & _ & ->). cbn [fst snd]. unfold ENOMEM.
    repeat split; auto; lia.
Qed.

Lemma zl_read_reg_invalid (reg : Z) (buf : list Z) (len : Z)
      (w : world Dev) :
  len = 0 \/ 255 < len ->
  let x := page_select_transfer g (page_of reg) in
  let ret := fst (fst (spi_ioc_message (dev w) x)) in
  let r := zl_read_reg g reg buf len w in
  bus_log (snd r) = bus_log w ++ [(x, ret)] /\
  fst r = ((if ret <? 1 then -1 else - EINVAL), buf).
Proof.
  intros Hlen. cbv zeta.
  pose proof (page_of_range reg) as Hpage.
  destruct (zl_set_page_run (page_of reg) w) as (Hrc & Hlog & _); [lia|].
  unfold zl_read_reg.
  destruct (zl_set_page g (page_of reg) w) as [rc w1].
  cbn [fst snd] in Hrc, Hlog. subst rc.
  destruct (_ <? 1); cbn [Z.eqb].
  - cbn [fst snd]. auto.
  - rewrite spi_read_invalid by assumption. cbn [fst snd]. auto.
Qed.

(** C2: a length of 0 or above 255 makes [spi_read] return [-EINVAL]
    with the world, bus log included, untouched; [zl_read_reg] has by
    then submitted its page-select write, the one transfer of the call,
    and returns [-EINVAL] when that write went through and [-1] when it
    did not. *)
Theorem invalid_length (reg off : Z) (buf : list Z) (len : Z)
        (w : world Dev) :
  len = 0 \/ 255 < len ->
  spi_read g off buf len w = (- EINVAL, buf, w) /\
  let x := page_select_transfer g (page_of reg) in
  let ret := fst (fst (spi_ioc_message (dev w) x)) in
  let r := zl_read_reg g reg buf len w in
  bus_log (snd r) = bus_log w ++ [(x, ret)] /\
  fst r = ((if ret <? 1 then -1 else - EINVAL), buf).
Proof.
  intros Hlen. split.
  - now apply spi_read_invalid.
  - now apply zl_read_reg_invalid.
Qed.

(** ** Bus trace of a register read *)

Lemma zl_read_reg_trace (reg : Z) (buf : list Z) (len : Z) (w : world Dev) :
  0 <= len ->
  let r := zl_read_reg g reg buf len w in
  stdout (snd r) = stdout w /\
  (fst (fst r) = 0 \/ fst (fst r) < 0) /\
  exists es,
    bus_log (snd r) = bus_log w ++ es /\
    (fst (fst r) = 0 -> Forall accepted es).
Proof.
  intros Hsize. cbv zeta.
  pose proof (page_of_range reg) as Hpage.
  destruct (zl_set_page_run (page_of reg) w)
    as (Hrc & Hlog & Hout & _ & _ & _); [lia|].
  unfold zl_read_reg.
  destruct (zl_set_page g (page_of reg) w) as [rc w1].
  cbn [fst snd] in Hrc, Hlog, Hout. subst rc.
  set (x := page_select_transfer g (page_of reg)) in *.
  set (ret := fst (fst (spi_ioc_message (dev w) x))) in *.
  destruct (Z.ltb_spec ret 1) as [Hbad|Hgood]; cbn [Z.eqb].
  - cbn [fst snd]. repeat split; [assumption | right; lia |].
    exists [(x, ret)]. split; [assumption | intros; lia].
  - destruct (Z.eq_dec len 0) as [H0|H0];
      [|destruct (Z_lt_dec 255 len) as [H255|H255]].
    1,2: rewrite spi_read_invalid by auto; cbn [fst snd]; unfold EINVAL;
      (repeat split; [assumption | right; lia |]);
      exists [(x, ret)]; (split; [assumption | intros; lia]).
    assert (Hlen : 1 <= len <= 255) by lia.
    pose proof (spi_read_run (off_of reg) buf len w1 Hlen) as Hrun.
    cbv zeta in Hrun.
    destruct (spi_ioc_message (dev w1) _) as [[ret2 got] d].
    destruct Hrun as (Hout2 & _ & _ & Hrun).
    destruct (callocs_ok 2 w1).
    + destruct Hrun as (Hlog2 & _ & Hres). rewrite Hres, Hlog2, Hlog, Hout2.
      destruct (Z.ltb_spec ret2 1); cbn [fst snd];
        (repeat split; [assumption | auto; right; lia |]);
        eexists; (split; [rewrite <- app_assoc; reflexivity|]);
        intros; try lia.
      repeat constructor; unfold accepted; cbn [snd]; lia.
    + destruct Hrun as (Hlog2 & _ & Hres). rewrite Hres, Hlog2, Hout2.
      cbn [fst snd]. unfold ENOMEM.
      repeat split; [assumption | right; lia |].
      exists [(x, ret)]. split; [assumption | intros; lia].
Qed.

(** ** The two transfers of a register read *)

(** Every way [zl_read_reg] can go, in terms of the answers of the device
    to the page-select write and to the read that follows it. *)
Lemma zl_read_reg_run (reg : Z) (buf : list Z) (len : Z) (w : world Dev) :
  0 <= len ->
  let ps := page_select_transfer g (page_of reg) in
  let rd := read_transfer g (off_of reg) len in
  let r := zl_read_reg g reg buf len w in
  let '(ret1, _, d1) := spi_ioc_message (dev w) ps in
  let '(ret2, got, d2) := spi_ioc_message d1 rd in
  stdout (snd r) = stdout w /\
  uninit (snd r) = uninit w /\
  if ret1 <? 1 then
    fst r = (-1, buf) /\ bus_log (snd r) = bus_log w ++ [(ps, ret1)] /\
    dev (snd r) = d1 /\ heap (snd r) = heap w
  else if (len =? 0) || (len >? 255) then
    fst r = (- EINVAL, buf) /\ bus_log (snd r) = bus_log w ++ [(ps, ret1)] /\
    dev (snd r) = d1 /\ heap (snd r) = heap w
  else if callocs_ok 2 w then
    fst r = (if ret2 <? 1 then (-1, buf)
             else (0, memcpy buf
                        (skipn 1 (received got
                                    (repeat 0 (Z.to_nat (len + 1))))) len)) /\
    bus_log (snd r) = bus_log w ++ [(ps, ret1); (rd, ret2)] /\
    dev (snd r) = d2 /\ heap (snd r) = skipn 2 (heap w)
  else
    fst r = (- ENOMEM, buf) /\ bus_log (snd r) = bus_log w ++ [(ps, ret1)] /\
    dev (snd r) = d1 /\ heap (snd r) = skipn 2 (heap w).
Proof.
  intros Hsize. cbv zeta.
  pose proof (page_of_range reg) as Hpage.
  destruct (zl_set_page_run (page_of reg) w)
    as (Hrc & Hlog & Hout & Hheap & Hun & Hdev); [lia|].
  unfold zl_read_reg.
  destruct (zl_set_page g (page_of reg) w) as [rc w1].
  cbn [fst snd] in Hrc, Hlog, Hout, Hheap, Hun, Hdev.
  destruct (spi_ioc_message (dev w) (page_select_transfer g (page_of reg)))
    as [[ret1 junk] d1].
  cbn [fst snd] in Hrc, Hlog, Hdev. subst rc.
  destruct (spi_ioc_message d1 (read_transfer g (off_of reg) len))
    as [[ret2 got] d2] eqn:Hrd.
  destruct (Z.ltb_spec ret1 1) as [Hbad|Hgood]; cbn [Z.eqb].
  { cbn [fst snd]. repeat split; assumption. }
  destruct ((len =? 0) || (len >? 255)) eqn:Hinv.
  { assert (Hlen : len = 0 \/ 255 < len).
    { apply orb_true_iff in Hinv as [E|E];
        [left; now apply Z.eqb_eq | right; apply Z.gtb_lt in E; lia]. }
    rewrite spi_read_invalid by assumption. cbn [fst snd].
    repeat split; assumption. }
  assert (Hlen : 1 <= len <= 255).
  { apply orb_false_iff in Hinv as [E1 E2].
    apply Z.eqb_neq in E1.
    destruct (Z.gtb_spec len 255); [discriminate | lia]. }
  pose proof (spi_read_run (off_of reg) buf len w1 Hlen) as Hrun.
  cbv zeta in Hrun. rewrite Hdev, Hrd in Hrun.
  destruct Hrun as (Hout2 & Hheap2 & Hun2 & Hrun).
  assert (Hok : callocs_ok 2 w1 = callocs_ok 2 w)
    by (unfold callocs_ok; now rewrite Hheap).
  rewrite Hok in Hrun.
  destruct (callocs_ok 2 w);
    destruct Hrun as (Hlog2 & Hdev2 & Hres);
    rewrite Hout2, Hun2, Hheap2, Hlog2, Hdev2, Hres, Hlog, Hout, Hun, Hheap;
    rewrite <- ?app_assoc; repeat split; reflexivity.
Qed.

(** X1: when the page-select write is not accepted the read is not
    attempted: [zl_read_reg] returns [-1], the caller's buffer, the heap
    and the standard output are as before, and the write is the only
    transfer logged. *)
Theorem zl_read_reg_page_select_fails (reg : Z) (buf : list Z) (len : Z)
        (w : world Dev) :
  0 <= len ->
  let ps := page_select_transfer g (page_of reg) in
  let ret := fst (fst (spi_ioc_message (dev w) ps)) in
  ret < 1 ->
  let r := zl_read_reg g reg buf len w in
  fst r = (-1, buf) /\
  new_transfers w (snd r) = [(ps, ret)] /\
  heap (snd r) = heap w /\
  stdout (snd r) = stdout w.
Proof.
  intros Hsize ps ret Hret r. subst ps ret r.
  pose proof (zl_read_reg_run reg buf len w Hsize) as Hrun.
  cbv zeta in Hrun.
  destruct (spi_ioc_message (dev w) (page_select_transfer g (page_of reg)))
    as [[ret1 junk] d1].
  destruct (spi_ioc_message d1 _) as [[ret2 got] d2].
  cbn [fst snd] in Hret |- *.
  apply Z.ltb_lt in Hret. rewrite Hret in Hrun.
  destruct Hrun as (Hout & _ & Hres & Hlog & _ & Hheap).
  repeat split; try assumption.
  unfold new_transfers. rewrite Hlog, skipn_app, skipn_all, Nat.sub_diag.
  reflexivity.
Qed.

(** X2: with a valid length, both scratch buffers and an accepted
    page-select write, [zl_read_reg] submits exactly two transfers: the
    write of [reg]'s page and then, on the device as that write left it,
    the read of [len] bytes at [reg]'s offset; it returns 0 with bytes 1
    to [len] of the receive buffer when the read returned 1 or more, and
    [-1] with the buffer untouched otherwise. *)
Theorem zl_read_reg_two_transfers (reg : Z) (buf : list Z) (len : Z)
        (w : world Dev) :
  1 <= len <= 255 ->
  callocs_ok 2 w = true ->
  let ps := page_select_transfer g (page_of reg) in
  let rd := read_transfer g (off_of reg) len in
  let ret1 := fst (fst (spi_ioc_message (dev w) ps)) in
  let d1 := snd (spi_ioc_message (dev w) ps) in
  let ret2 := fst (fst (spi_ioc_message d1 rd)) in
  let got := snd (fst (spi_ioc_message d1 rd)) in
  1 <= ret1 ->
  let r := zl_read_reg g reg buf len w in
  new_transfers w (snd r) = [(ps, ret1); (rd, ret2)] /\
  dev (snd r) = snd (spi_ioc_message d1 rd) /\
  fst r = (if ret2 <? 1 then (-1, buf)
           else (0, memcpy buf
                      (skipn 1 (received got
                                  (repeat 0 (Z.to_nat (len + 1))))) len)).
Proof.
  intros Hlen Hheap ps rd ret1 d1 ret2 got Hret r.
  subst ps rd ret1 d1 ret2 got r.
  assert (Hsize : 0 <= len) by lia.
  pose proof (zl_read_reg_run reg buf len w Hsize) as Hrun.
  cbv zeta in Hrun.
  destruct (spi_ioc_message (dev w) (page_select_transfer g (page_of reg)))
    as [[ret1 junk] d1].
  cbn [fst snd] in Hret |- *.
  destruct (spi_ioc_message d1 _) as [[ret2 got] d2].
  cbn [fst snd].
  destruct (Z.ltb_spec ret1 1) as [|_]; [lia|].
  destruct (Z.eqb_spec len 0) as [|_]; [lia|].
  destruct (Z.gtb_spec len 255) as [|_]; [lia|].
  cbn [orb] in Hrun. rewrite Hheap in Hrun.
  destruct Hrun as (_ & _ & Hres & Hlog & Hdev & _).
  repeat split; try assumption.
  unfold new_transfers. rewrite Hlog, skipn_app, skipn_all, Nat.sub_diag.
  reflexivity.
Qed.

(** X3: with a valid length, [spi_read] returns [-ENOMEM] exactly when
    one of its two [calloc] calls fails; it has then made both calls,
    submitted no transfer and left the caller's buffer and the device
    alone. *)
Theorem spi_read_out_of_memory (off : Z) (buf : list Z) (len : Z)
        (w : world Dev) :
  1 <= len <= 255 ->
  let r := spi_read g off buf len w in
  (fst (fst r) = - ENOMEM <-> callocs_ok 2 w = false) /\
  (callocs_ok 2 w = false ->
   fst r = (- ENOMEM, buf) /\
   bus_log (snd r) = bus_log w /\
   dev (snd r) = dev w /\
   heap (snd r) = skipn 2 (heap w)).
Proof.
  intros Hlen r. subst r.
  pose proof (spi_read_run off buf len w Hlen) as Hrun.
  cbv zeta in Hrun.
  destruct (spi_ioc_message (dev w) _) as [[ret got] d].
  destruct Hrun as (_ & Hheap & _ & Hrun).
  destruct (callocs_ok 2 w).
  - destruct Hrun as (_ & _ & Hres). rewrite Hres. split.
    + unfold ENOMEM. destruct (ret <? 1); cbn [fst]; split;
        intros E; discriminate E.
    + intros E. discriminate E.
  - destruct Hrun as (Hlog & Hdev & Hres). rewrite Hres. cbn [fst].
    repeat split; auto.
Qed.

(** ** The caller's buffer *)

Lemma received_length (got rx : list Z) :
  List.length (received got rx) = List.length rx.
Proof.
  unfold received.
  rewrite length_firstn, length_app, length_skipn. lia.
Qed.

Lemma received_bytes_ok (got rx : list Z) :
  bytes_ok got -> bytes_ok rx -> bytes_ok (received got rx).
Proof.
  intros Hgot Hrx. unfold received. apply bytes_ok_firstn.
  apply Forall_app. split; [exact Hgot | now apply bytes_ok_skipn].
Qed.

(** X4: for a length within the caller's buffer, [spi_read] changes at
    most the first [len] bytes of it: whatever it returns, the buffer has
    the size it had, the bytes from [len] on are as before, and it holds
    bytes when it held bytes and the driver delivered bytes. *)
Theorem spi_read_fills_prefix (off : Z) (buf : list Z) (len : Z)
        (w : world Dev) :
  0 <= len <= Z.of_nat (List.length buf) ->
  let r := spi_read g off buf len w in
  let buf' := snd (fst r) in
  let got := snd (fst (spi_ioc_message (dev w) (read_transfer g off len))) in
  List.length buf' = List.length buf /\
  skipn (Z.to_nat len) buf' = skipn (Z.to_nat len) buf /\
  (bytes_ok buf -> bytes_ok got -> bytes_ok buf').
Proof.
  intros Hfit r buf' got. subst r buf' got.
  destruct (Z.eq_dec len 0) as [H0|H0];
    [rewrite spi_read_invalid by auto; cbn [fst snd]; auto|].
  destruct (Z_lt_dec 255 len) as [H255|H255];
    [rewrite spi_read_invalid by auto; cbn [fst snd]; auto|].
  assert (Hlen : 1 <= len <= 255) by lia.
  pose proof (spi_read_run off buf len w Hlen) as Hrun.
  cbv zeta in Hrun.
  destruct (spi_ioc_message (dev w) _) as [[ret got] d].
  destruct Hrun as (_ & _ & _ & Hrun). cbn [fst snd].
  destruct (callocs_ok 2 w); destruct Hrun as (_ & _ & ->);
    [destruct (ret <? 1)|]; cbn [fst snd]; auto.
  unfold memcpy.
  set (rx := received got (repeat 0 (Z.to_nat (len + 1)))).
  assert (Hrx : List.length (skipn 1 rx) = Z.to_nat len).
  { rewrite length_skipn. subst rx.
    rewrite received_length, repeat_length. lia. }
  assert (Hpay : firstn (Z.to_nat len) (skipn 1 rx) = skipn 1 rx).
  { apply firstn_all2. lia. }
  rewrite Hpay. repeat split.
  - rewrite length_app, Hrx, length_skipn. lia.
  - rewrite skipn_app, Hrx, Nat.sub_diag.
    rewrite skipn_all2 by lia. reflexivity.
  - intros Hbuf Hgot. apply Forall_app. split.
    + apply bytes_ok_skipn. subst rx.
      apply received_bytes_ok; [exact Hgot | apply bytes_ok_zeros].
    + now apply bytes_ok_skipn.
Qed.

(** X5: every transfer [zl_read_reg] submits is well formed: its
    transmit buffer, and its receive buffer when it has one, have exactly
    the length the transfer announces, the first byte sent is a register
    offset of at most [0x7F], and speed and word size are the configured
    ones. *)
Theorem zl_read_reg_well_formed (reg : Z) (buf : list Z) (len : Z)
        (w : world Dev) :
  0 <= len ->
  Forall (fun e => well_formed g (fst e))
         (new_transfers w (snd (zl_read_reg g reg buf len w))).
Proof.
  intros Hsize.
  assert (Hps : well_formed g (page_select_transfer g (page_of reg))).
  { unfold well_formed, page_select_transfer. cbn. repeat split; lia. }
  pose proof (zl_read_reg_run reg buf len w Hsize) as Hrun.
  cbv zeta in Hrun.
  destruct (spi_ioc_message (dev w) _) as [[ret1 junk] d1].
  destruct (spi_ioc_message d1 _) as [[ret2 got] d2].
  destruct Hrun as (_ & _ & Hrun).
  assert (Hone : forall l,
             bus_log (snd (zl_read_reg g reg buf len w)) = bus_log w ++ l ->
             new_transfers w (snd (zl_read_reg g reg buf len w)) = l).
  { intros l Hl. unfold new_transfers.
    rewrite Hl, skipn_app, skipn_all, Nat.sub_diag. reflexivity. }
  destruct (ret1 <? 1);
    [destruct Hrun as (_ & Hlog & _); rewrite (Hone _ Hlog);
     apply Forall_cons; [exact Hps | apply Forall_nil]|].
  destruct ((len =? 0) || (len >? 255)) eqn:Hinv;
    [destruct Hrun as (_ & Hlog & _); rewrite (Hone _ Hlog);
     apply Forall_cons; [exact Hps | apply Forall_nil]|].
  destruct (callocs_ok 2 w);
    destruct Hrun as (_ & Hlog & _); rewrite (Hone _ Hlog);
    (apply Forall_cons; [exact Hps|]); [|apply Forall_nil].
  apply Forall_cons; [|apply Forall_nil].
  cbn [fst]. pose proof (off_of_range reg) as Hoff.
  unfold well_formed, read_transfer.
  cbn [Spidev.tx_buf Spidev.rx_buf Spidev.len Spidev.speed_hz
       Spidev.bits_per_word Spidev.cs_change hd List.length].
  rewrite !repeat_length. repeat split; lia.
Qed.

End AccessorFacts.

(** ** The read-and-decode step *)

Section ProbeFacts.
Context {Dev : Type} `{SpiBus Dev}.
Variable pf : platform.
Variable g : globals.

(** C4: on two bytes [hi, lo] the decode step assigns [hi*256 + lo], on
    four bytes [b0, b1, b2, b3] it assigns
    [b0*2^24 + b1*2^16 + b2*2^8 + b3], and one byte is assigned as it is,
    whatever the byte order of the host, for a variable wide enough for
    the field. *)
Theorem ZL_READ_REG_assign_big_endian (REG_s : string) (sizeof_OUTVAR : Z)
        (w : world Dev) :
  (forall b rest,
      0 <= b < 256 -> 1 <= sizeof_OUTVAR ->
      ZL_READ_REG_assign pf REG_s sizeof_OUTVAR 1 (b :: rest) w
      = (Return b, w)) /\
  (forall hi lo rest,
      0 <= hi < 256 -> 0 <= lo < 256 -> 2 <= sizeof_OUTVAR ->
      ZL_READ_REG_assign pf REG_s sizeof_OUTVAR 2 (hi :: lo :: rest) w
      = (Return (hi * 256 + lo), w)) /\
  (forall b0 b1 b2 b3 rest,
      0 <= b0 < 256 -> 0 <= b1 < 256 -> 0 <= b2 < 256 -> 0 <= b3 < 256 ->
      4 <= sizeof_OUTVAR ->
      ZL_READ_REG_assign pf REG_s sizeof_OUTVAR 4
                         (b0 :: b1 :: b2 :: b3 :: rest) w
      = (Return (b0 * 2 ^ 24 + b1 * 2 ^ 16 + b2 * 2 ^ 8 + b3), w)).
Proof.
  unfold ZL_READ_REG_assign. repeat split.
  - intros b rest Hb Hsz. cbn [Z.eqb Pos.eqb nth].
    now rewrite (cast_fits b sizeof_OUTVAR 8) by (pow_literals; lia).
  - intros hi lo rest Hhi Hlo Hsz. cbn [Z.eqb Pos.eqb].
    rewrite ntohs_load_u16 by assumption.
    now rewrite (cast_fits _ sizeof_OUTVAR 16) by (pow_literals; lia).
  - intros b0 b1 b2 b3 rest H0 H1 H2 H3 Hsz. cbn [Z.eqb Pos.eqb].
    rewrite ntohl_load_u32 by assumption.
    now rewrite (cast_fits _ sizeof_OUTVAR 32) by (pow_literals; lia).
Qed.

Lemma size_t_nonneg (x : Z) : 0 <= size_t x.
Proof. unfold size_t. apply Z.mod_pos_bound. reflexivity. Qed.

(** C5: for a length other than 1, 2 and 4 the macro never assigns a
    value: it leaves through [errx] with [EXIT_FAILURE].  A length above
    8 is refused before any transfer with the message that the read is
    too long; a length of 0 ends in the message that the read failed;
    for the lengths 3, 5, 6, 7 and 8 the message is that the read failed
    when [zl_read_reg] returned an error and otherwise that the length
    is unsupported (only 8, 16, 32 bits). *)
Theorem ZL_READ_REG_other_length (REG_s : string) (REG : Z)
        (OUTVAR_s : string) (sizeof_OUTVAR : Z) (LEN : Z) (w : world Dev) :
  let n := size_t LEN in
  n <> 1 -> n <> 2 -> n <> 4 ->
  let r := ZL_READ_REG pf g REG_s REG OUTVAR_s sizeof_OUTVAR LEN w in
  let w1 :=
    if n >? sizeof_OUTVAR then
      warnx pf (REG_s ++ " read len " ++ fmt_u n ++ " > "
                ++ fmt_u sizeof_OUTVAR ++ " for " ++ OUTVAR_s)%string w
    else w in
  let rc :=
    fst (fst (zl_read_reg g (u16 REG)
                          (firstn 8 (uninit w ++ repeat 0 8)) n w1)) in
  exists msg,
    fst r = Errx EXIT_FAILURE msg /\
    (8 < n ->
     msg = (REG_s ++ " read len " ++ fmt_u n ++ " > 8")%string /\
     bus_log (snd r) = bus_log w) /\
    (n = 0 -> msg = ("read " ++ REG_s ++ " failed")%string) /\
    (3 <= n <= 8 ->
     msg = if rc <? 0 then ("read " ++ REG_s ++ " failed")%string
           else (REG_s ++ " unsupported LEN=" ++ fmt_u n
                 ++ " (only 8,16,32 bits)")%string).
Proof.
  intros n H1 H2 H4. cbv zeta. unfold ZL_READ_REG. fold n.
  pose proof (size_t_nonneg LEN) as Hn. fold n in Hn.
  destruct (Z.gtb_spec n 8) as [Hbig|Hsmall].
  - eexists. split; [reflexivity|]. repeat split; intros; try lia.
  - set (w1 := if n >? sizeof_OUTVAR then _ else w).
    destruct (Z.eq_dec n 0) as [Hz|Hnz].
    + (* the read itself refuses a length of 0 *)
      pose proof (zl_read_reg_invalid g (u16 REG)
                    (firstn 8 (uninit w ++ repeat 0 8)) n w1
                    (or_introl Hz)) as Hinv.
      cbv zeta in Hinv. destruct Hinv as [_ Hres].
      destruct (zl_read_reg g (u16 REG) _ n w1) as [[rc b] w2].
      cbn [fst snd] in Hres |- *.
      assert (Hrc : (rc <? 0) = true).
      { injection Hres as -> _. unfold EINVAL.
        destruct (_ <? 1); reflexivity. }
      rewrite Hrc. eexists. split; [reflexivity|].
      repeat split; intros; try lia.
    + destruct (zl_read_reg g (u16 REG) _ n w1) as [[rc b] w2].
      cbn [fst snd].
      destruct (rc <? 0).
      * eexists. split; [reflexivity|]. repeat split; intros; try lia.
      * unfold ZL_READ_REG_assign.
        destruct (Z.eqb_spec n 1); [lia|].
        destruct (Z.eqb_spec n 2); [lia|].
        destruct (Z.eqb_spec n 4); [lia|].
        eexists. split; [reflexivity|]. repeat split; intros; try lia.
Qed.

(** ** Bus trace of the probe *)

Lemma errx_guarded {A : Type} (msg : string) :
  guarded (@errx Dev pf A EXIT_FAILURE msg).
Proof.
  intros w. split; [reflexivity|]. exists []. cbn.
  now rewrite app_nil_r.
Qed.

Lemma ZL_READ_REG_guarded (REG_s : string) (REG : Z) (OUTVAR_s : string)
      (sizeof_OUTVAR LEN : Z) :
  guarded (ZL_READ_REG pf g REG_s REG OUTVAR_s sizeof_OUTVAR LEN).
Proof.
  intros w. unfold ZL_READ_REG.
  destruct (size_t LEN >? 8); [apply errx_guarded|].
  set (w1 := if size_t LEN >? sizeof_OUTVAR then _ else w).
  assert (Hw1 : stdout w1 = stdout w /\ bus_log w1 = bus_log w).
  { subst w1. destruct (_ >? _); split; reflexivity. }
  destruct Hw1 as [Hout1 Hlog1].
  pose proof (zl_read_reg_trace g (u16 REG)
                (firstn 8 (uninit w ++ repeat 0 8)) (size_t LEN) w1
                (size_t_nonneg LEN)) as Htr.
  cbv zeta in Htr.
  destruct (zl_read_reg g (u16 REG) _ (size_t LEN) w1) as [[rc b] w2].
  cbn [fst snd] in Htr. destruct Htr as (Hout & Hrc & es & Hlog & Hacc).
  rewrite Hout1 in Hout. rewrite Hlog1 in Hlog.
  destruct (Z.ltb_spec rc 0) as [Hneg|Hpos].
  - cbn. split; [assumption|]. exists es. auto.
  - assert (Hzero : rc = 0) by lia.
    unfold ZL_READ_REG_assign.
    repeat (destruct (size_t LEN =? _));
      cbn; (split; [assumption|]); exists es; auto.
Qed.

Lemma bind_all_or_nothing {A B : Type}
      (m : world Dev -> outcome A * world Dev)
      (k : A -> world Dev -> outcome B * world Dev) :
  guarded m -> (forall a, all_or_nothing (k a)) ->
  all_or_nothing (bind m k).
Proof.
  intros Hm Hk w. unfold bind.
  destruct (Hm w) as (Hout & es & Hlog & Hres).
  destruct (m w) as [[a|st msg] w1]; cbn [fst snd] in *.
  - destruct (Hk a w1) as (es2 & Hlog2 & Hres2).
    exists (es ++ es2). rewrite Hlog2, Hlog, app_assoc.
    split; [reflexivity|].
    destruct (fst (k a w1)).
    + apply Forall_app. auto.
    + destruct Hres2 as [-> Hout2]. split; [reflexivity | congruence].
  - exists es. auto.
Qed.

Lemma main_body_all_or_nothing : all_or_nothing (main_body pf g).
Proof.
  unfold main_body.
  repeat (apply bind_all_or_nothing;
          [apply ZL_READ_REG_guarded | intros ?]).
  intros w. exists []. cbn. rewrite app_nil_r. auto.
Qed.

Lemma new_transfers_app (w w' : world Dev)
      (es : list (Spidev.spi_ioc_transfer * Z)) :
  bus_log w' = bus_log w ++ es -> new_transfers w w' = es.
Proof.
  intros Hlog. unfold new_transfers. rewrite Hlog.
  rewrite skipn_app, skipn_all, Nat.sub_diag. reflexivity.
Qed.

(** C1: when the ioctl of a read returns less than 1, [spi_read] returns
    [-1] and leaves the caller's buffer alone, and when the ioctl of a
    byte write returns less than 1, [spi_write_u8] returns [-1]; a return
    of 1 or more, short of the length asked for or not, makes either
    return 0.  Any transfer of the probe that returned less than 1 ends
    the probe with [EXIT_FAILURE] and nothing on the standard output. *)
Theorem bus_failure_aborts :
  (forall off buf len (w : world Dev),
      1 <= len <= 255 -> callocs_ok 2 w = true ->
      let ret :=
        fst (fst (spi_ioc_message (dev w) (read_transfer g off len))) in
      (ret < 1 -> fst (spi_read g off buf len w) = (-1, buf)) /\
      (1 <= ret -> fst (fst (spi_read g off buf len w)) = 0)) /\
  (forall reg_off val (w : world Dev),
      let ret :=
        fst (fst (spi_ioc_message
                    (dev w)
                    {| Spidev.tx_buf := [reg_off; val];
                       Spidev.rx_buf := None;
                       Spidev.len := 2;
                       Spidev.speed_hz := speed_hz g;
                       Spidev.bits_per_word := bits_per_word g;
                       Spidev.cs_change := 0 |})) in
      (ret < 1 -> fst (spi_write_u8 g reg_off val w) = -1) /\
      (1 <= ret -> fst (spi_write_u8 g reg_off val w) = 0)) /\
  (forall w : world Dev,
      let r := main_body pf g w in
      Exists (fun e => snd e < 1) (new_transfers w (snd r)) ->
      (exists msg, fst r = Errx EXIT_FAILURE msg) /\
      stdout (snd r) = stdout w).
Proof.
  split; [|split].
  - intros off buf len w Hlen Hheap. cbv zeta.
    pose proof (spi_read_run g off buf len w Hlen) as Hrun.
    cbv zeta in Hrun.
    destruct (spi_ioc_message (dev w) (read_transfer g off len))
      as [[ret got] d].
    cbn [fst]. rewrite Hheap in Hrun.
    destruct Hrun as (_ & _ & _ & _ & _ & ->).
    destruct (Z.ltb_spec ret 1); split; intros; (reflexivity || lia).
  - intros reg_off val w. cbv zeta.
    destruct (spi_write_u8_run g reg_off val w) as (-> & _).
    destruct (Z.ltb_spec
                (fst (fst (spi_ioc_message
                             (dev w)
                             {| Spidev.tx_buf := [reg_off; val];
                                Spidev.rx_buf := None;
                                Spidev.len := 2;
                                Spidev.speed_hz := speed_hz g;
                                Spidev.bits_per_word := bits_per_word g;
                                Spidev.cs_change := 0 |}))) 1);
      split; intros; (reflexivity || lia).
  - intros w r Hbad. subst r.
    destruct (main_body_all_or_nothing w) as (es & Hlog & Hres).
    rewrite (new_transfers_app _ _ _ Hlog) in Hbad.
    destruct (fst (main_body pf g w)) as [st|st msg].
    + exfalso. apply Exists_exists in Hbad as (e & Hin & Hlt).
      rewrite Forall_forall in Hres. specialize (Hres e Hin).
      unfold accepted in Hres. lia.
    + destruct Hres as [-> Hout]. eauto.
Qed.

(** ** Tracing *)

Lemma eprint_same_but_stderr (s s' : string) (w w' : world Dev) :
  same_but_stderr w w' -> same_but_stderr (eprint s w) (eprint s' w').
Proof. intros Hw. exact Hw. Qed.

Lemma zl_read_reg_agree (level : Z) (reg : Z) (buf : list Z) (len : Z)
      (w w' : world Dev) :
  0 <= len -> same_but_stderr w w' ->
  fst (zl_read_reg g reg buf len w)
  = fst (zl_read_reg (with_debug g level) reg buf len w') /\
  same_but_stderr (snd (zl_read_reg g reg buf len w))
                  (snd (zl_read_reg (with_debug g level) reg buf len w')).
Proof.
  intros Hsize (Hdev & Hlog & Hheap & Hun & Hout).
  pose proof (zl_read_reg_run g reg buf len w Hsize) as Hrun.
  pose proof (zl_read_reg_run (with_debug g level) reg buf len w' Hsize)
    as Hrun'.
  cbv zeta in Hrun, Hrun'.
  change (page_select_transfer (with_debug g level) (page_of reg))
    with (page_select_transfer g (page_of reg)) in Hrun'.
  change (read_transfer (with_debug g level) (off_of reg) len)
    with (read_transfer g (off_of reg) len) in Hrun'.
  assert (Hok : callocs_ok 2 w' = callocs_ok 2 w)
    by (unfold callocs_ok; now rewrite Hheap).
  rewrite <- Hdev, Hok in Hrun'.
  destruct (spi_ioc_message (dev w) _) as [[ret1 junk] d1].
  destruct (spi_ioc_message d1 _) as [[ret2 got] d2].
  destruct Hrun as (Ho & Hu & Hrun). destruct Hrun' as (Ho' & Hu' & Hrun').
  unfold same_but_stderr.
  destruct (ret1 <? 1); [|destruct ((len =? 0) || (len >? 255));
                           [|destruct (callocs_ok 2 w)]];
    destruct Hrun as (Hr & Hl & Hd & Hh);
    destruct Hrun' as (Hr' & Hl' & Hd' & Hh');
    rewrite Hr, Hr', Hl, Hl', Hd, Hd', Hh, Hh', Ho, Ho', Hu, Hu';
    repeat split; congruence.
Qed.

Lemma ZL_READ_REG_agree (level : Z) (REG_s : string) (REG : Z)
      (OUTVAR_s : string) (sizeof_OUTVAR LEN : Z) (w w' : world Dev) :
  same_but_stderr w w' ->
  fst (ZL_READ_REG pf g REG_s REG OUTVAR_s sizeof_OUTVAR LEN w)
  = fst (ZL_READ_REG pf (with_debug g level) REG_s REG OUTVAR_s
                     sizeof_OUTVAR LEN w') /\
  same_but_stderr
    (snd (ZL_READ_REG pf g REG_s REG OUTVAR_s sizeof_OUTVAR LEN w))
    (snd (ZL_READ_REG pf (with_debug g level) REG_s REG OUTVAR_s
                      sizeof_OUTVAR LEN w')).
Proof.
  intros Hw. unfold ZL_READ_REG.
  destruct (size_t LEN >? 8); [split; [reflexivity | exact Hw]|].
  set (w1 := if size_t LEN >? sizeof_OUTVAR then _ else w).
  set (w1' := if size_t LEN >? sizeof_OUTVAR then _ else w').
  assert (Hw1 : same_but_stderr w1 w1').
  { subst w1 w1'. destruct (_ >? _); exact Hw. }
  assert (Hb : firstn 8 (uninit w ++ repeat 0 8)
               = firstn 8 (uninit w' ++ repeat 0 8)).
  { destruct Hw as (_ & _ & _ & -> & _). reflexivity. }
  rewrite <- Hb.
  destruct (zl_read_reg_agree level (u16 REG)
              (firstn 8 (uninit w ++ repeat 0 8)) (size_t LEN) w1 w1'
              (size_t_nonneg LEN) Hw1) as [Hfst Hsnd].
  destruct (zl_read_reg g (u16 REG) _ (size_t LEN) w1) as [[rc b] w2].
  destruct (zl_read_reg (with_debug g level) (u16 REG) _ (size_t LEN) w1')
    as [[rc' b'] w2'].
  cbn [fst snd] in Hfst, Hsnd. injection Hfst as <- <-.
  destruct (rc <? 0); [split; [reflexivity | exact Hsnd]|].
  unfold ZL_READ_REG_assign.
  repeat (destruct (size_t LEN =? _));
    (split; [reflexivity | exact Hsnd]).
Qed.

Lemma bind_agree {A B : Type}
      (m m' : world Dev -> outcome A * world Dev)
      (k k' : A -> world Dev -> outcome B * world Dev) :
  (forall w w', same_but_stderr w w' ->
                fst (m w) = fst (m' w') /\
                same_but_stderr (snd (m w)) (snd (m' w'))) ->
  (forall a w w', same_but_stderr w w' ->
                  fst (k a w) = fst (k' a w') /\
                  same_but_stderr (snd (k a w)) (snd (k' a w'))) ->
  forall w w', same_but_stderr w w' ->
               fst (bind m k w) = fst (bind m' k' w') /\
               same_but_stderr (snd (bind m k w)) (snd (bind m' k' w')).
Proof.
  intros Hm Hk w w' Hw. unfold bind.
  destruct (Hm w w' Hw) as [Hfst Hsnd].
  destruct (m w) as [[a|st msg] w1]; destruct (m' w') as [[a'|st' msg'] w1'];
    cbn [fst snd] in Hfst, Hsnd; try discriminate Hfst.
  - injection Hfst as <-. now apply Hk.
  - injection Hfst as <- <-. split; [reflexivity | exact Hsnd].
Qed.

(** X6: the debug level changes nothing but the error stream: at any
    level the probe ends with the same outcome, has submitted the same
    transfers with the same results, leaves the device and the heap in the
    same state and has printed the same report. *)
Theorem tracing_is_transparent (level : Z) (w : world Dev) :
  fst (main_body pf g w) = fst (main_body pf (with_debug g level) w) /\
  same_but_stderr (snd (main_body pf g w))
                  (snd (main_body pf (with_debug g level) w)).
Proof.
  assert (Hw : same_but_stderr w w) by (repeat split; reflexivity).
  revert Hw. generalize w at 2 4 6. generalize w.
  unfold main_body.
  repeat (apply bind_agree; [intros; now apply ZL_READ_REG_agree | intros ?]).
  intros w1 w1' (Hdev & Hlog & Hheap & Hun & Hout).
  unfold same_but_stderr, print.
  cbn [fst snd dev bus_log heap uninit stdout]. rewrite Hout.
  repeat split; assumption.
Qed.

(** ** The transfers of a completed probe *)

Lemma ZL_READ_REG_returns (REG_s : string) (REG : Z) (OUTVAR_s : string)
      (sizeof_OUTVAR LEN : Z) (w : world Dev) (v : Z) :
  fst (ZL_READ_REG pf g REG_s REG OUTVAR_s sizeof_OUTVAR LEN w) = Return v ->
  stdout (snd (ZL_READ_REG pf g REG_s REG OUTVAR_s sizeof_OUTVAR LEN w))
  = stdout w /\
  exists r1 r2,
    1 <= r1 /\ 1 <= r2 /\
    bus_log (snd (ZL_READ_REG pf g REG_s REG OUTVAR_s sizeof_OUTVAR LEN w))
    = bus_log w
      ++ [(page_select_transfer g (page_of (u16 REG)), r1);
          (read_transfer g (off_of (u16 REG)) (size_t LEN), r2)].
Proof.
  unfold ZL_READ_REG.
  destruct (size_t LEN >? 8); [discriminate|].
  set (w1 := if size_t LEN >? sizeof_OUTVAR then _ else w).
  assert (Hw1 : dev w1 = dev w /\ bus_log w1 = bus_log w /\
                stdout w1 = stdout w /\ callocs_ok 2 w1 = callocs_ok 2 w).
  { subst w1. destruct (_ >? _); repeat split; reflexivity. }
  destruct Hw1 as (Hdev & Hlog & Hout & Hok).
  pose proof (zl_read_reg_run g (u16 REG)
                (firstn 8 (uninit w ++ repeat 0 8)) (size_t LEN) w1
                (size_t_nonneg LEN)) as Hrun.
  cbv zeta in Hrun. rewrite Hdev, Hok, Hlog, Hout in Hrun.
  destruct (spi_ioc_message (dev w) _) as [[ret1 junk] d1].
  destruct (spi_ioc_message d1 _) as [[ret2 got] d2].
  destruct Hrun as (Hout2 & _ & Hrun).
  destruct (zl_read_reg g (u16 REG) _ (size_t LEN) w1) as [[rc b] w2].
  cbn [fst snd] in Hout2, Hrun.
  assert (Hgood : (rc <? 0) = false ->
                  1 <= ret1 /\ 1 <= ret2 /\
                  bus_log w2
                  = bus_log w
                    ++ [(page_select_transfer g (page_of (u16 REG)), ret1);
                        (read_transfer g (off_of (u16 REG)) (size_t LEN),
                         ret2)]).
  { intros Hrc. unfold EINVAL, ENOMEM in Hrun.
    destruct (Z.ltb_spec ret1 1);
      [destruct Hrun as (E & _); injection E as -> _; discriminate Hrc|].
    destruct ((size_t LEN =? 0) || (size_t LEN >? 255));
      [destruct Hrun as (E & _); injection E as -> _; discriminate Hrc|].
    destruct (callocs_ok 2 w);
      [|destruct Hrun as (E & _); injection E as -> _; discriminate Hrc].
    destruct Hrun as (E & Hl & _).
    destruct (Z.ltb_spec ret2 1);
      [injection E as -> _; discriminate Hrc|].
    auto. }
  destruct (rc <? 0); [discriminate|].
  destruct (Hgood eq_refl) as (H1 & H2 & Hl).
  intros Hret. unfold ZL_READ_REG_assign in *.
  repeat (destruct (size_t LEN =? _));
    try discriminate Hret; cbn [fst snd]; (split; [assumption|]);
    exists ret1, ret2; auto.
Qed.

(** X7: a probe that runs to its end returns [EXIT_SUCCESS] and has then
    submitted exactly eight transfers, every one accepted: a write
    selecting page 0 before each of the reads of 2 bytes at offset 1, 2
    bytes at offset 3, 2 bytes at offset 5 and 4 bytes at offset 7, in
    that order. *)
Theorem main_body_success_trace (w : world Dev) (st : Z) :
  fst (main_body pf g w) = Return st ->
  st = EXIT_SUCCESS /\
  map fst (new_transfers w (snd (main_body pf g w)))
  = [page_select_transfer g 0; read_transfer g 1 2;
     page_select_transfer g 0; read_transfer g 3 2;
     page_select_transfer g 0; read_transfer g 5 2;
     page_select_transfer g 0; read_transfer g 7 4] /\
  Forall accepted (new_transfers w (snd (main_body pf g w))).
Proof.
  unfold main_body, bind.
  destruct (ZL_READ_REG pf g "ZL_REG_ID" _ _ _ _ w) as [[v1|s1 m1] w1] eqn:E1;
    [|discriminate].
  destruct (ZL_READ_REG pf g "ZL_REG_REVISION" _ _ _ _ w1)
    as [[v2|s2 m2] w2] eqn:E2; [|discriminate].
  destruct (ZL_READ_REG pf g "ZL_REG_FW_VER" _ _ _ _ w2)
    as [[v3|s3 m3] w3] eqn:E3; [|discriminate].
  destruct (ZL_READ_REG pf g "ZL_REG_CUSTOM_CONFIG_VER" _ _ _ _ w3)
    as [[v4|s4 m4] w4] eqn:E4; [|discriminate].
  pose proof (ZL_READ_REG_returns _ _ _ _ _ w v1 (f_equal fst E1)) as R1.
  pose proof (ZL_READ_REG_returns _ _ _ _ _ w1 v2 (f_equal fst E2)) as R2.
  pose proof (ZL_READ_REG_returns _ _ _ _ _ w2 v3 (f_equal fst E3)) as R3.
  pose proof (ZL_READ_REG_returns _ _ _ _ _ w3 v4 (f_equal fst E4)) as R4.
  rewrite E1 in R1. rewrite E2 in R2. rewrite E3 in R3. rewrite E4 in R4.
  cbn [fst snd] in R1, R2, R3, R4.
  destruct R1 as (_ & a1 & b1 & Ha1 & Hb1 & L1).
  destruct R2 as (_ & a2 & b2 & Ha2 & Hb2 & L2).
  destruct R3 as (_ & a3 & b3 & Ha3 & Hb3 & L3).
  destruct R4 as (_ & a4 & b4 & Ha4 & Hb4 & L4).
  intros Hst. cbn [fst] in Hst. injection Hst as <-.
  unfold new_transfers, print. cbn [fst snd bus_log].
  rewrite L4, L3, L2, L1, <- !app_assoc, skipn_app, skipn_all, Nat.sub_diag.
  cbn [skipn app map fst].
  repeat split.
  repeat (apply Forall_cons; [unfold accepted; cbn [snd]; assumption|]).
  apply Forall_nil.
Qed.

Lemma main_body_return_status (w : world Dev) (st : Z) :
  fst (main_body pf g w) = Return st -> st = EXIT_SUCCESS.
Proof.
  unfold main_body, bind.
  repeat (destruct (ZL_READ_REG pf g _ _ _ _ _ _) as [[?|? ?] ?];
          [|discriminate]).
  cbn [fst]. intros E. now injection E.
Qed.

End ProbeFacts.

(** ** Start-up *)

Section MainFacts.
Context {Dev : Type} `{SpiBus Dev}.
Variable pf : platform.
Variable strtoul : string -> Z.
Variable atoi : string -> Z.
Variable argv0 : string.

Lemma u32_range (x : Z) : 0 <= u32 x < 2 ^ 32.
Proof. unfold u32. apply Z.mod_pos_bound. reflexivity. Qed.

Lemma to_int_range (x : Z) : - 2 ^ 31 <= to_int x < 2 ^ 31.
Proof.
  unfold to_int.
  pose proof (Z.mod_pos_bound (x + 2 ^ 31) (2 ^ 32) eq_refl). lia.
Qed.

Lemma to_int_small (x : Z) : - 2 ^ 31 <= x < 2 ^ 31 -> to_int x = x.
Proof. intros Hx. unfold to_int. rewrite Z.mod_small; lia. Qed.

(** What the loop keeps, whatever the options. *)
Lemma getopt_loop_invariant (evs : list getopt_ret) :
  forall (g : globals) (w : world Dev),
    same_but_stderr w (snd (getopt_loop pf strtoul atoi argv0 evs g w)) /\
    match fst (getopt_loop pf strtoul atoi argv0 evs g w) with
    | Return (inl g') =>
        bits_per_word g' = bits_per_word g /\ (globals_ok g -> globals_ok g')
    | Return (inr st) => st = EXIT_FAILURE
    | Errx st _ => st = EXIT_FAILURE
    end.
Proof.
  induction evs as [|ev rest IH]; intros g w; cbn [getopt_loop].
  - split; [repeat split; reflexivity | cbn; auto].
  - destruct (Ascii.eqb (opt ev) "d");
      [|destruct (Ascii.eqb (opt ev) "s");
        [|destruct (Ascii.eqb (opt ev) "m");
          [|destruct (Ascii.eqb (opt ev) "D")]]].
    + match goal with
      | |- context [getopt_loop pf strtoul atoi argv0 rest ?g1 ?w1] =>
          destruct (IH g1 w1) as [Hw Hg]
      end.
      split; [exact Hw|].
      destruct (fst (getopt_loop pf strtoul atoi argv0 rest _ _))
        as [[g'|st]|st msg]; assumption.
    + match goal with
      | |- context [getopt_loop pf strtoul atoi argv0 rest ?g1 ?w1] =>
          destruct (IH g1 w1) as [Hw Hg]
      end.
      split; [exact Hw|].
      destruct (fst (getopt_loop pf strtoul atoi argv0 rest _ _))
        as [[g'|st]|st msg]; try assumption.
      destruct Hg as [Hb Hok]. split; [exact Hb|].
      intros Hg0. apply Hok.
      pose proof (u32_range (strtoul (optarg ev))).
      unfold globals_ok in *. cbn [mode speed_hz debug] in *. lia.
    + remember (atoi (optarg ev)) as m eqn:Em.
      destruct (Z.ltb_spec m 0) as [Hneg|Hpos];
        [split; [repeat split; reflexivity | reflexivity]|].
      destruct (Z.gtb_spec m 3) as [Hbig|Hsmall];
        [split; [repeat split; reflexivity | reflexivity]|].
      cbn [orb].
      match goal with
      | |- context [getopt_loop pf strtoul atoi argv0 rest ?g1 ?w1] =>
          destruct (IH g1 w1) as [Hw Hg]
      end.
      split; [exact Hw|].
      destruct (fst (getopt_loop pf strtoul atoi argv0 rest _ _))
        as [[g'|st]|st msg]; try assumption.
      destruct Hg as [Hb Hok]. split; [exact Hb|].
      intros Hg0. apply Hok.
      assert (Hcases : m = 0 \/ m = 1 \/ m = 2 \/ m = 3) by lia.
      unfold globals_ok in *. cbn [mode speed_hz debug] in *.
      unfold SPI_MODE_0, SPI_MODE_1, SPI_MODE_2, SPI_MODE_3.
      destruct Hcases as [ -> | [ -> | [ -> | -> ]]]; lia.
    + match goal with
      | |- context [getopt_loop pf strtoul atoi argv0 rest ?g1 ?w1] =>
          destruct (IH g1 w1) as [Hw Hg]
      end.
      split; [exact Hw|].
      destruct (fst (getopt_loop pf strtoul atoi argv0 rest _ _))
        as [[g'|st]|st msg]; try assumption.
      destruct Hg as [Hb Hok]. split; [exact Hb|].
      intros Hg0. apply Hok.
      pose proof (to_int_range (strtoul (optarg ev))).
      unfold globals_ok in *. cbn [mode speed_hz debug] in *. lia.
    + split; [repeat split; reflexivity | reflexivity].
Qed.

(** The loop over a list of options in two parts. *)
Lemma getopt_loop_app (evs1 evs2 : list getopt_ret) :
  forall (g : globals) (w : world Dev),
    getopt_loop pf strtoul atoi argv0 (evs1 ++ evs2) g w
    = match getopt_loop pf strtoul atoi argv0 evs1 g w with
      | (Return (inl g'), w') => getopt_loop pf strtoul atoi argv0 evs2 g' w'
      | r => r
      end.
Proof.
  induction evs1 as [|ev rest IH]; intros g w; cbn [getopt_loop app].
  - reflexivity.
  - destruct (Ascii.eqb (opt ev) "d"); [apply IH|].
    destruct (Ascii.eqb (opt ev) "s"); [apply IH|].
    destruct (Ascii.eqb (opt ev) "m").
    { destruct ((atoi (optarg ev) <? 0) || (atoi (optarg ev) >? 3));
        [reflexivity | apply IH]. }
    destruct (Ascii.eqb (opt ev) "D"); [apply IH | reflexivity].
Qed.

(** X9: the option loop touches nothing but the configuration and the
    error stream: device, bus log, heap and standard output are as they
    were.  When it ends with a configuration the word size is the one it
    started with, and mode, speed and debug level are still a mode in 0
    to 3, a [uint32_t] and an [int]; when it does not, the status is
    [EXIT_FAILURE]. *)
Theorem getopt_loop_keeps (evs : list getopt_ret) (g : globals)
        (w : world Dev) :
  globals_ok g ->
  same_but_stderr w (snd (getopt_loop pf strtoul atoi argv0 evs g w)) /\
  match fst (getopt_loop pf strtoul atoi argv0 evs g w) with
  | Return (inl g') => bits_per_word g' = bits_per_word g /\ globals_ok g'
  | Return (inr st) => st = EXIT_FAILURE
  | Errx st _ => st = EXIT_FAILURE
  end.
Proof.
  intros Hg. destruct (getopt_loop_invariant evs g w) as [Hw Hres].
  split; [exact Hw|].
  destruct (fst (getopt_loop pf strtoul atoi argv0 evs g w)) as [[g'|st]|st msg]; try assumption.
  destruct Hres as [Hb Hok]. auto.
Qed.

(** X10: an option [-m] whose value [atoi] reads as less than 0 or more
    than 3 ends the program in [errx] with [EXIT_FAILURE] and the message
    naming that value; the options after it are not looked at. *)
Theorem invalid_mode_is_fatal (pre post : list getopt_ret) (ev : getopt_ret)
        (g g' : globals) (w w' : world Dev) :
  getopt_loop pf strtoul atoi argv0 pre g w = (Return (inl g'), w') ->
  opt ev = "m"%char ->
  atoi (optarg ev) < 0 \/ 3 < atoi (optarg ev) ->
  let msg := ("Invalid SPI mode " ++ fmt_d (atoi (optarg ev))
              ++ ", expected 0..3")%string in
  getopt_loop pf strtoul atoi argv0 (pre ++ ev :: post) g w
  = (Errx EXIT_FAILURE msg,
     eprint (progname pf ++ ": " ++ msg ++ nl)%string
            (eprint (diag ev) w')).
Proof.
  intros Hpre Hopt Hm msg. subst msg.
  rewrite getopt_loop_app, Hpre. cbn [getopt_loop]. rewrite Hopt.
  cbn [Ascii.eqb Bool.eqb].
  assert (Hbad : (atoi (optarg ev) <? 0) || (atoi (optarg ev) >? 3) = true).
  { apply orb_true_iff. destruct Hm as [Hm|Hm].
    - left. now apply Z.ltb_lt.
    - right. apply Z.gtb_lt. lia. }
  rewrite Hbad. reflexivity.
Qed.

(** X11: [-h], and any return of [getopt_long] that is none of [d], [s],
    [m] and [D], makes [main] print the usage text and return
    [EXIT_FAILURE] without looking at later options; the values the text
    shows as defaults are those set by the options before it. *)
Theorem help_prints_usage (pre post : list getopt_ret) (ev : getopt_ret)
        (g g' : globals) (w w' : world Dev) :
  getopt_loop pf strtoul atoi argv0 pre g w = (Return (inl g'), w') ->
  opt ev <> "d"%char -> opt ev <> "s"%char ->
  opt ev <> "m"%char -> opt ev <> "D"%char ->
  getopt_loop pf strtoul atoi argv0 (pre ++ ev :: post) g w
  = (Return (inr EXIT_FAILURE), usage argv0 g' (eprint (diag ev) w')).
Proof.
  intros Hpre Hd Hs Hm HD.
  rewrite getopt_loop_app, Hpre. cbn [getopt_loop].
  apply Ascii.eqb_neq in Hd, Hs, Hm, HD.
  now rewrite Hd, Hs, Hm, HD.
Qed.

(** X12: [main] ends with [EXIT_SUCCESS] or [EXIT_FAILURE], and with
    [EXIT_FAILURE] nothing has been printed on the standard output.  A
    transfer is submitted only after the options gave a configuration,
    [open] returned a descriptor that is not negative and none of the
    three configuration ioctls returned -1; that configuration has the
    word size 8, a mode in 0 to 3 and a 32-bit speed. *)
Theorem main_all_or_nothing (evs : list getopt_ret) (k : kernel)
        (w : world Dev) :
  let r := main pf strtoul atoi argv0 evs k w in
  (exit_status (fst r) = EXIT_SUCCESS \/ exit_status (fst r) = EXIT_FAILURE) /\
  (exit_status (fst r) = EXIT_FAILURE -> stdout (snd r) = stdout w) /\
  (bus_log (snd r) <> bus_log w ->
   exists g w1,
     getopt_loop pf strtoul atoi argv0 evs default_globals w
     = (Return (inl g), w1) /\
     0 <= fst (sys_open k (devnode g)) /\
     fst (wr_mode k (mode g)) <> -1 /\
     fst (wr_bits_per_word k (bits_per_word g)) <> -1 /\
     fst (wr_max_speed_hz k (speed_hz g)) <> -1 /\
     bits_per_word g = 8 /\ globals_ok g /\
     r = main_body pf g w1).
Proof.
  cbv zeta. unfold main.
  destruct (getopt_loop_invariant evs default_globals w) as [Hw Hres].
  destruct (getopt_loop pf strtoul atoi argv0 evs default_globals w)
    as [[[g|st]|st msg] w1] eqn:Hloop; cbn [fst snd] in Hw, Hres.
  2,3: subst st; destruct Hw as (_ & Hlog & _ & _ & Hout); cbn [fst snd exit_status];
    (split; [now right|]); (split; [now auto|]);
    intros Hne; now rewrite Hlog in Hne.
  destruct Hw as (_ & Hlog & _ & _ & Hout).
  destruct Hres as [Hbits Hok].
  assert (Hg : globals_ok g).
  { apply Hok. unfold globals_ok, default_globals, SPI_MODE_0. cbn. lia. }
  destruct (sys_open k (devnode g)) as [fd e0] eqn:Eo.
  destruct (Z.ltb_spec fd 0) as [Hfd|Hfd];
    [cbn [err fst snd exit_status eprint stdout bus_log];
     split; [now right|]; split; [now auto|];
     intros Hne; now rewrite Hlog in Hne|].
  destruct (wr_mode k (mode g)) as [r1 e1] eqn:E1.
  destruct (Z.eqb_spec r1 (-1)) as [Hr1|Hr1];
    [cbn [err fst snd exit_status eprint stdout bus_log];
     split; [now right|]; split; [now auto|];
     intros Hne; now rewrite Hlog in Hne|].
  destruct (wr_bits_per_word k (bits_per_word g)) as [r2 e2] eqn:E2.
  destruct (Z.eqb_spec r2 (-1)) as [Hr2|Hr2];
    [cbn [err fst snd exit_status eprint stdout bus_log];
     split; [now right|]; split; [now auto|];
     intros Hne; now rewrite Hlog in Hne|].
  destruct (wr_max_speed_hz k (speed_hz g)) as [r3 e3] eqn:E3.
  destruct (Z.eqb_spec r3 (-1)) as [Hr3|Hr3];
    [cbn [err fst snd exit_status eprint stdout bus_log];
     split; [now right|]; split; [now auto|];
     intros Hne; now rewrite Hlog in Hne|].
  destruct (main_body_all_or_nothing pf g w1) as (es & Hlog2 & Hres2).
  pose proof (main_body_return_status pf g w1) as Hret.
  split; [|split].
  - destruct (fst (main_body pf g w1)) as [st|st msg]; cbn [exit_status].
    + left. now apply Hret.
    + right. now destruct Hres2.
  - destruct (fst (main_body pf g w1)) as [st|st msg]; cbn [exit_status].
    + intros Hst. rewrite (Hret st eq_refl) in Hst. discriminate Hst.
    + intros _. destruct Hres2 as [_ Hout2]. congruence.
  - intros _. exists g, w1. rewrite Eo, E1, E2, E3. cbn [fst].
    unfold globals_ok in *.
    repeat split; try assumption; lia.
Qed.

End MainFacts.

(** * Instances on concrete inputs *)

Lemma lookup_name_exact_witness :
  lookup_name 0x0E95 = "ZL3073x (A)"%string /\
  lookup_name 0xFFFF = "Unknown"%string.
Proof.
  split.
  - apply (proj1 (lookup_name_exact 0x0E95)). reflexivity.
  - apply (proj1 (proj2 (proj2 (proj2 (lookup_name_exact 0xFFFF)))));
      discriminate.
Defined.

Lemma zl_read_reg_split_witness :
  page_of 0x0481 = Z.shiftr 0x0481 7 /\
  off_of 0x0481 = Z.land 0x0481 0x7F /\
  page_of 0x0481 * ZL_PAGE_SIZE + off_of 0x0481 = 0x0481.
Proof.
  destruct (zl_read_reg_split default_globals 0x0481 [] 2
              (fresh_world ([] : scripted)))
    as (Hp & Ho & Hsum & _); [lia|].
  auto.
Defined.

(** ** End to end on the register-file device *)

(** With page 0 selected the device answers the four reads of the probe
    with the bytes of the identity block, after the byte [e]. *)
Lemma identity_stub_reads (e : Z) (other : Z -> Z -> Z) :
  let d := identity_stub 0 e other in
  let answer := fun off len =>
    snd (fst (spi_ioc_message d (read_transfer default_globals off len))) in
  answer 1 2 = [e; 0x0E; 0x95] /\
  answer 3 2 = [e; 0x00; 0x10] /\
  answer 5 2 = [e; 0x00; 0x02] /\
  answer 7 4 = [e; 0x00; 0x00; 0x00; 0x01].
Proof. repeat split; reflexivity. Qed.

(** C8: on a bus whose page 0 reads [0E 95] at offset 1, [00 10] at offset
    3, [00 02] at offset 5 and [00 00 00 01] at offset 7, the probe ends
    with [EXIT_SUCCESS] and prints chip ID 0x0E95 with the name
    ZL3073x (A), revision 0x0010 with major 1 and minor 0, firmware version
    0x0002 and custom config version 0x00000001, whatever page was selected
    before, whatever the device returns as first byte and in its other
    registers, and on either byte order. *)
Theorem probe_identity_report (order : endian) (prog : string) (p e : Z)
        (other : Z -> Z -> Z) (junk : list Z) :
  let w := start_world (identity_stub p e other) junk in
  let r := main_body {| host_order := order; progname := prog |}
                     default_globals w in
  fst r = Return EXIT_SUCCESS /\
  stdout (snd r) = identity_report /\
  lookup_name 0x0E95 = "ZL3073x (A)"%string /\
  List.length (bus_log (snd r)) = 8%nat.
Proof.
  destruct order; vm_compute; repeat split; reflexivity.
Qed.

(** ** Instances of the general statements *)

Lemma zl_set_page_spec_witness :
  zl_set_page default_globals 16 (fresh_world (identity_stub 0 0 (fun _ _ => 0)))
  = (- EINVAL, fresh_world (identity_stub 0 0 (fun _ _ => 0))) /\
  bus_log (snd (zl_set_page default_globals 3
                            (fresh_world (identity_stub 0 0 (fun _ _ => 0)))))
  = [(page_select_transfer default_globals 3, 2)].
Proof.
  pose proof (zl_set_page_spec default_globals 16
                (fresh_world (identity_stub 0 0 (fun _ _ => 0)))) as [Hhi _].
  pose proof (zl_set_page_spec default_globals 3
                (fresh_world (identity_stub 0 0 (fun _ _ => 0)))) as [_ Hlo].
  split.
  - apply Hhi. lia.
  - destruct Hlo as (_ & _ & _ & _ & Hlog & _); [lia|]. exact Hlog.
Defined.

Lemma spi_read_buffer_witness :
  snd (fst (spi_read default_globals 1 [0x11; 0x22] 2
                     (fresh_world ([] : scripted)))) = [0x11; 0x22].
Proof.
  destruct (spi_read_buffer default_globals 1 [0x11; 0x22] 2
              (fresh_world ([] : scripted))) as (Hkeep & _); [lia|].
  apply Hkeep. vm_compute. discriminate.
Defined.

Lemma invalid_length_witness :
  spi_read default_globals 1 [] 0
           (fresh_world (identity_stub 0 0 (fun _ _ => 0)))
  = (- EINVAL, [], fresh_world (identity_stub 0 0 (fun _ _ => 0))) /\
  fst (zl_read_reg default_globals ZL_REG_ID [] 0
                   (fresh_world (identity_stub 0 0 (fun _ _ => 0))))
  = (- EINVAL, []).
Proof.
  destruct (invalid_length default_globals ZL_REG_ID 1 [] 0
              (fresh_world (identity_stub 0 0 (fun _ _ => 0))))
    as (Hread & _ & Hres); [left; reflexivity|].
  split; [exact Hread | exact Hres].
Defined.

Lemma ZL_READ_REG_assign_big_endian_witness :
  ZL_READ_REG_assign linux_le "ZL_REG_ID" 2 2 [0x0E; 0x95]
                     (fresh_world ([] : scripted))
  = (Return (0x0E * 256 + 0x95), fresh_world ([] : scripted)) /\
  ZL_READ_REG_assign linux_le "ZL_REG_CUSTOM_CONFIG_VER" 4 4
                     [0x12; 0x34; 0x56; 0x78] (fresh_world ([] : scripted))
  = (Return (0x12 * 2 ^ 24 + 0x34 * 2 ^ 16 + 0x56 * 2 ^ 8 + 0x78),
     fresh_world ([] : scripted)) /\
  ZL_READ_REG_assign linux_le "ZL_REG_ID" 1 1 [0xA5]
                     (fresh_world ([] : scripted))
  = (Return 0xA5, fresh_world ([] : scripted)).
Proof.
  split; [|split].
  - apply (proj1 (proj2 (ZL_READ_REG_assign_big_endian
                           linux_le "ZL_REG_ID" 2
                           (fresh_world ([] : scripted))))); lia.
  - apply (proj2 (proj2 (ZL_READ_REG_assign_big_endian
                           linux_le "ZL_REG_CUSTOM_CONFIG_VER" 4
                           (fresh_world ([] : scripted))))); lia.
  - apply (proj1 (ZL_READ_REG_assign_big_endian
                    linux_le "ZL_REG_ID" 1
                    (fresh_world ([] : scripted)))); lia.
Defined.

Lemma ZL_READ_REG_other_length_witness :
  exists msg,
    fst (ZL_READ_REG linux_le default_globals "ZL_REG_ID" ZL_REG_ID
                     "chip_id" 2 3
                     (fresh_world (identity_stub 0 0 (fun _ _ => 0))))
    = Errx EXIT_FAILURE msg.
Proof.
  destruct (ZL_READ_REG_other_length
              linux_le default_globals "ZL_REG_ID" ZL_REG_ID "chip_id" 2 3
              (fresh_world (identity_stub 0 0 (fun _ _ => 0))))
    as (msg & Hmsg & _); [vm_compute; discriminate ..|].
  exists msg. exact Hmsg.
Defined.

Lemma bus_failure_aborts_witness :
  fst (spi_read default_globals 1 [0; 0] 2 (fresh_world ([] : scripted)))
  = (-1, [0; 0]) /\
  fst (spi_write_u8 default_globals ZL_PAGE_SEL 0
                    (fresh_world ([] : scripted))) = -1 /\
  (exists msg,
      fst (main_body linux_le default_globals
                     (fresh_world ([(2, []); (0, [])] : scripted)))
      = Errx EXIT_FAILURE msg) /\
  stdout (snd (main_body linux_le default_globals
                         (fresh_world ([(2, []); (0, [])] : scripted))))
  = ""%string.
Proof.
  destruct (@bus_failure_aborts scripted _ linux_le default_globals)
    as (Hread & Hwrite & Hmain).
  split; [|split].
  - apply Hread; [lia | reflexivity | reflexivity].
  - apply Hwrite. reflexivity.
  - apply (Hmain (fresh_world ([(2, []); (0, [])] : scripted))).
    vm_compute. apply Exists_cons_tl, Exists_cons_hd. reflexivity.
Defined.

(** ** Where the code departs from the stated behaviour *)

(** C1, as stated, fails: a read that asked for 3 bytes and a write that
    asked for 2, each answered with a count of 1, are both taken as
    carried out and return 0. *)
Lemma short_transfer_accepted :
  let w := fresh_world ([(1, [0xAA])] : scripted) in
  let r := spi_read default_globals 1 [0; 0] 2 w in
  let r' := spi_write_u8 default_globals ZL_PAGE_SEL 0 w in
  bus_log (snd r) = [(read_transfer default_globals 1 2, 1)] /\
  Spidev.len (read_transfer default_globals 1 2) = 3 /\
  fst (fst r) = 0 /\
  bus_log (snd r') = [(page_select_transfer default_globals 0, 1)] /\
  Spidev.len (page_select_transfer default_globals 0) = 2 /\
  fst r' = 0.
Proof. vm_compute. repeat split; reflexivity. Qed.

(** C2, as stated, fails: [zl_read_reg] with a length of 0 returns
    [-EINVAL] after it has written the page-select register. *)
Lemma zero_length_read_selects_page :
  let w := fresh_world (identity_stub 0 0 (fun _ _ => 0)) in
  let r := zl_read_reg default_globals ZL_REG_ID [] 0 w in
  fst (fst r) = - EINVAL /\
  bus_log (snd r) = [(page_select_transfer default_globals 0, 2)] /\
  bus_log (snd r) <> bus_log w.
Proof. vm_compute. repeat split; try reflexivity. discriminate. Qed.

(** C5, as stated, fails: a length of 9 and a length of 0 end the macro
    with other messages than the one for an unsupported width. *)
Lemma other_length_other_message :
  let w := fresh_world (identity_stub 0 0 (fun _ _ => 0)) in
  let run := fun LEN =>
    fst (ZL_READ_REG linux_le default_globals "ZL_REG_ID" ZL_REG_ID
                     "chip_id" 2 LEN w) in
  run 9 = Errx EXIT_FAILURE "ZL_REG_ID read len 9 > 8" /\
  run 9 <> Errx EXIT_FAILURE "ZL_REG_ID unsupported LEN=9 (only 8,16,32 bits)" /\
  run 0 = Errx EXIT_FAILURE "read ZL_REG_ID failed" /\
  run 0 <> Errx EXIT_FAILURE "ZL_REG_ID unsupported LEN=0 (only 8,16,32 bits)" /\
  run 3 = Errx EXIT_FAILURE "ZL_REG_ID unsupported LEN=3 (only 8,16,32 bits)".
Proof. vm_compute. repeat split; try reflexivity; discriminate. Qed.

(** ** Instances for the accessor, the probe and the start-up *)

Lemma zl_read_reg_page_select_fails_witness :
  fst (zl_read_reg default_globals ZL_REG_ID [0x11; 0x22] 2
                   (fresh_world ([] : scripted)))
  = (-1, [0x11; 0x22]).
Proof.
  destruct (zl_read_reg_page_select_fails
              default_globals ZL_REG_ID [0x11; 0x22] 2
              (fresh_world ([] : scripted))) as (Hres & _);
    [lia | reflexivity | exact Hres].
Defined.

Lemma zl_read_reg_two_transfers_witness :
  fst (zl_read_reg default_globals ZL_REG_ID [0; 0] 2
                   (fresh_world (identity_stub 5 0xAA (fun _ _ => 0))))
  = (0, [0x0E; 0x95]).
Proof.
  destruct (zl_read_reg_two_transfers
              default_globals ZL_REG_ID [0; 0] 2
              (fresh_world (identity_stub 5 0xAA (fun _ _ => 0))))
    as (_ & _ & Hres); [lia | reflexivity | vm_compute; discriminate |].
  exact Hres.
Defined.

Lemma spi_read_out_of_memory_witness :
  fst (spi_read default_globals 1 [0x11; 0x22] 2
                {| dev := ([] : scripted); bus_log := [];
                   heap := [true; false]; uninit := [];
                   stderr := ""; stdout := "" |})
  = (- ENOMEM, [0x11; 0x22]).
Proof.
  destruct (spi_read_out_of_memory
              default_globals 1 [0x11; 0x22] 2
              {| dev := ([] : scripted); bus_log := [];
                 heap := [true; false]; uninit := [];
                 stderr := ""; stdout := "" |}) as (_ & Hfail); [lia|].
  destruct Hfail as (Hres & _); [reflexivity | exact Hres].
Defined.

Lemma spi_read_fills_prefix_witness :
  skipn 2 (snd (fst (spi_read default_globals 1 [1; 2; 3; 4] 2
                              (fresh_world
                                 (identity_stub 0 0xAA (fun _ _ => 0))))))
  = [3; 4].
Proof.
  destruct (spi_read_fills_prefix
              default_globals 1 [1; 2; 3; 4] 2
              (fresh_world (identity_stub 0 0xAA (fun _ _ => 0))))
    as (_ & Htail & _); [cbn; lia|].
  exact Htail.
Defined.

Lemma zl_read_reg_well_formed_witness :
  Forall (fun e => well_formed default_globals (fst e))
         (new_transfers
            (fresh_world (identity_stub 0 0xAA (fun _ _ => 0)))
            (snd (zl_read_reg default_globals ZL_REG_CUSTOM_CONFIG_VER
                              [0; 0; 0; 0] 4
                              (fresh_world
                                 (identity_stub 0 0xAA (fun _ _ => 0)))))).
Proof.
  apply (zl_read_reg_well_formed default_globals). lia.
Defined.

Lemma main_body_success_trace_witness :
  List.length
    (new_transfers
       (fresh_world (identity_stub 0 0xAA (fun _ _ => 0)))
       (snd (main_body linux_le default_globals
                       (fresh_world (identity_stub 0 0xAA (fun _ _ => 0))))))
  = 8%nat.
Proof.
  destruct (main_body_success_trace
              linux_le default_globals
              (fresh_world (identity_stub 0 0xAA (fun _ _ => 0)))
              EXIT_SUCCESS) as (_ & Hmap & _); [reflexivity|].
  rewrite <- (length_map fst), Hmap. reflexivity.
Defined.


Lemma getopt_loop_keeps_witness :
  bus_log (snd (getopt_loop linux_le (fun _ => 100000) (fun _ => 2)
                            "zl30733_id"
                            [{| opt := "s"; optarg := "100000"; diag := "" |};
                             {| opt := "m"; optarg := "2"; diag := "" |}]
                            default_globals
                            (fresh_world ([] : scripted))))
  = [].
Proof.
  destruct (getopt_loop_keeps
              linux_le (fun _ => 100000) (fun _ => 2) "zl30733_id"
              [{| opt := "s"; optarg := "100000"; diag := "" |};
               {| opt := "m"; optarg := "2"; diag := "" |}]
              default_globals (fresh_world ([] : scripted)))
    as ((_ & Hlog & _) & _).
  - unfold globals_ok, default_globals, SPI_MODE_0. cbn. lia.
  - symmetry. exact Hlog.
Defined.

Lemma invalid_mode_is_fatal_witness :
  fst (getopt_loop linux_le (fun _ => 100000) (fun _ => 7) "zl30733_id"
                   ([{| opt := "s"; optarg := "100000"; diag := "" |}]
                    ++ {| opt := "m"; optarg := "7"; diag := "" |}
                    :: [{| opt := "h"; optarg := ""; diag := "" |}])
                   default_globals (fresh_world ([] : scripted)))
  = Errx EXIT_FAILURE "Invalid SPI mode 7, expected 0..3".
Proof.
  rewrite (invalid_mode_is_fatal
             linux_le (fun _ => 100000) (fun _ => 7) "zl30733_id"
             [{| opt := "s"; optarg := "100000"; diag := "" |}]
             [{| opt := "h"; optarg := ""; diag := "" |}]
             {| opt := "m"; optarg := "7"; diag := "" |}
             default_globals _ (fresh_world ([] : scripted)) _ eq_refl
             eq_refl (or_intror eq_refl)).
  reflexivity.
Defined.

Lemma help_prints_usage_witness :
  fst (getopt_loop linux_le (fun _ => 100000) (fun _ => 2) "zl30733_id"
                   ([{| opt := "s"; optarg := "100000"; diag := "" |}]
                    ++ {| opt := "h"; optarg := ""; diag := "" |}
                    :: [{| opt := "m"; optarg := "7"; diag := "" |}])
                   default_globals (fresh_world ([] : scripted)))
  = Return (inr EXIT_FAILURE).
Proof.
  rewrite (help_prints_usage
             linux_le (fun _ => 100000) (fun _ => 2) "zl30733_id"
             [{| opt := "s"; optarg := "100000"; diag := "" |}]
             [{| opt := "m"; optarg := "7"; diag := "" |}]
             {| opt := "h"; optarg := ""; diag := "" |}
             default_globals _ (fresh_world ([] : scripted)) _ eq_refl);
    [reflexivity | discriminate ..].
Defined.

Lemma main_all_or_nothing_witness :
  stdout (snd (main linux_le (fun _ => 0) (fun _ => 0) "zl30733_id" []
                    willing_kernel (fresh_world ([] : scripted))))
  = ""%string.
Proof.
  destruct (main_all_or_nothing
              linux_le (fun _ => 0) (fun _ => 0) "zl30733_id" []
              willing_kernel (fresh_world ([] : scripted)))
    as (_ & Hquiet & _).
  apply Hquiet. reflexivity.
Defined.
